(** * Verification of the gaussian-processes notebooks

    A shallow embedding of the code cells of
    [notebooks/gpytorch/gpytorch-LOVE.ipynb] and
    [notebooks/gpytorch/deep-kernel-learning.ipynb].

    The notebooks are glue over torch and gpytorch.  What the notebooks
    themselves compute (slicing, min/max scaling, the split index, loop
    structure, name lookups, the checkpoint write) is embedded as it is
    written.  What the libraries compute (forward passes, losses,
    gradients, optimizer updates) is abstracted as functions on abstract
    types, and every library call leaves an event in a call trace. *)

From Stdlib Require Import ZArith QArith Qminmax Qabs Qround Qpower Qreduction.
From Stdlib Require Import Lia Lqa Ascii.
From stdpp Require Import gmap strings list pretty.

Local Open Scope Z_scope.

(** ** Python values and control shared by both notebooks *)

Module Py.

(** The exceptions the cells can raise. *)
Inductive exn : Type :=
| NameError (name : string)
| AttributeError (msg : string)
| IndexError (msg : string)
| RuntimeError (msg : string)
| ZeroDivisionError.

Inductive result (A : Type) : Type :=
| Ok (a : A)
| Raise (e : exn).
Arguments Ok {A} a.
Arguments Raise {A} e.

(** A statement or call: it reads and writes the session state [W] and
    either returns or raises.  Effects done before a raise persist. *)
Definition M (W A : Type) : Type := W -> result A * W.

Definition ret {W A} (a : A) : M W A := fun w => (Ok a, w).

Definition bind {W A B} (c : M W A) (k : A -> M W B) : M W B :=
  fun w => match c w with
           | (Ok a, w') => k a w'
           | (Raise e, w') => (Raise e, w')
           end.

Definition raise {W A} (e : exn) : M W A := fun w => (Raise e, w).
Definition gets {W A} (f : W -> A) : M W A := fun w => (Ok (f w), w).
Definition modify {W} (f : W -> W) : M W unit := fun w => (Ok tt, f w).

(** [for x in xs: body] *)
Fixpoint for_each {W A} (xs : list A) (body : A -> M W unit) : M W unit :=
  match xs with
  | [] => ret tt
  | x :: xs' => bind (body x) (fun _ => for_each xs' body)
  end.

(** A [for] loop that rebinds local variables: [acc] holds them. *)
Fixpoint for_fold {W A S} (xs : list A) (acc : S) (body : S -> A -> M W S)
  : M W S :=
  match xs with
  | [] => ret acc
  | x :: xs' => bind (body acc x) (fun acc' => for_fold xs' acc' body)
  end.

(** [range(lo, hi)] and [range(n)] *)
Definition range2 (lo hi : Z) : list Z :=
  map (fun i => lo + Z.of_nat i) (seq 0 (Z.to_nat (hi - lo))).
Definition range (n : Z) : list Z := range2 0 n.

(** [enumerate(xs)] *)
Definition enumerate {A} (xs : list A) : list (Z * A) :=
  zip (map Z.of_nat (seq 0 (length xs))) xs.

(** Position a slice bound [k] denotes in a sequence of length [n]:
    negative bounds count from the end, and the result is clamped. *)
Definition slice_bound (k : Z) (n : nat) : nat :=
  if k <? 0 then Z.to_nat (Z.max 0 (Z.of_nat n + k))
  else Nat.min (Z.to_nat k) n.

(** [xs[:k]] and [xs[k:]] *)
Definition slice_to {A} (k : Z) (xs : list A) : list A :=
  take (slice_bound k (length xs)) xs.
Definition slice_from {A} (k : Z) (xs : list A) : list A :=
  drop (slice_bound k (length xs)) xs.

(** [xs[k]], with negative indices counting from the end. *)
Definition index {A} (k : Z) (xs : list A) : result A :=
  let n := Z.of_nat (length xs) in
  let p := if k <? 0 then n + k else k in
  if (0 <=? p) && (p <? n) then
    match xs !! Z.to_nat p with
    | Some x => Ok x
    | None => Raise (IndexError "index out of range")
    end
  else Raise (IndexError "index out of range").

(** [f"{z:wd}"]: decimal, right-aligned in a field of [w] characters. *)
Fixpoint spaces (n : nat) : string :=
  match n with O => EmptyString | S n' => String " "%char (spaces n') end.
Definition fmt_d (w : nat) (z : Z) : string :=
  let s := pretty z in
  spaces (w - String.length s) +:+ s.

Declare Scope py_scope.
Delimit Scope py_scope with py.
Notation "x <- c ;; k" := (bind c (fun x => k))
  (at level 100, c at next level, k at level 200, right associativity)
  : py_scope.
Notation "c ;; k" := (bind c (fun _ => k))
  (at level 100, k at level 200, right associativity) : py_scope.

End Py.

Import Py.

(** ** torch and gpytorch, as far as the notebooks use them *)

Module Torch.

(** What the libraries compute is a parameter of the development.
    [Input] and [Target] are the tensors fed to a model and compared
    with its output. *)
Class Library (Input Target : Type) : Type := {
  Params : Type;     (** values of the parameters of model and likelihood *)
  Grad : Type;       (** their [.grad] buffers *)
  OptState : Type;   (** optimizer state, learning rates included *)
  Output : Type;     (** a distribution returned by a model *)
  Scalar : Type;     (** a 0-dim tensor with its autograd graph *)
  StateDict : Type;  (** what [state_dict()] returns *)
  (** [model(x)], in training mode or not *)
  forward : Params -> bool -> Input -> Output;
  (** [ExactMarginalLogLikelihood(likelihood, model)(output, y)] *)
  exact_mll : Params -> Output -> Target -> Scalar;
  (** [VariationalMarginalLogLikelihood(likelihood, model, num_data)(output, y)] *)
  variational_mll : Z -> Params -> Output -> Target -> Scalar;
  (** [-1 * s] *)
  neg : Scalar -> Scalar;
  (** [loss.backward()]: adds the gradient of [loss] to the buffers *)
  backward : Scalar -> Grad -> Grad;
  (** [optimizer.zero_grad()] *)
  zeroed : Grad -> Grad;
  (** [optimizer.step()] *)
  optimizer_update : OptState -> Grad -> Params -> OptState * Params;
  (** [scheduler.step()] *)
  scheduler_update : OptState -> OptState;
  (** [likelihood(model(data)).argmax().eq(target.view_as(pred)).cpu().sum()] *)
  count_correct : Params -> Input -> Target -> Z;
  (** [model.state_dict()] and [likelihood.state_dict()] *)
  model_state_dict : Params -> StateDict;
  likelihood_state_dict : Params -> StateDict;
  (** [f"{loss.item(): .Nf}"] *)
  fmt_loss : nat -> Scalar -> string;
  (** [f"{x:.Nf}"] for a Python float *)
  fmt_f : nat -> Q -> string;
  (** [f"{100. * correct / n:.3f}"] *)
  fmt_accuracy : Z -> Z -> string;
}.

(** The library calls a cell makes, in the order it makes them. *)
Inductive call : Type :=
| ZeroGrad
| Forward
| Loss
| Backward
| OptStep
| SchedulerStep
| ModelTrain
| ModelEval
| LikelihoodTrain
| LikelihoodEval
| Predict
| GcCollect
| EmptyCache
| Save (path : string).

#[export] Instance call_eq_dec : EqDecision call.
Proof. solve_decision. Defined.

(** The calls of one pass through the body of a training loop. *)
Definition iteration_calls : list call :=
  [ZeroGrad; Forward; Loss; Backward; OptStep].

(** How often a call occurs in a trace. *)
Definition count (c : call) (trace : list call) : nat :=
  length (filter (fun c' => c' = c) trace).

Section Session.
Context {Input Target : Type} `{L : Library Input Target}.

(** A [DataLoader]: the batches one pass yields, and
    [len(loader.dataset)]. *)
Record loader : Type := {
  batches : list (Input * Target);
  dataset_len : Z;
}.

(** Values bound to names or stored in a dict. *)
Inductive pyval : Type :=
| VStateDict (sd : StateDict)
| VLoader (l : loader)
| VInt (z : Z).

(** The mutable state of a kernel session.  The globals that the cells
    before a function bind and nothing rebinds (the data, the loaders)
    are arguments of the functions below.  [names] holds every other
    global name: those a cell binds while it runs, and whatever else the
    session has bound; it is empty in a freshly started kernel. *)
Record session : Type := {
  params : Params;
  grad : Grad;
  opt : OptState;
  model_training : bool;
  likelihood_training : bool;
  names : gmap string pyval;
  files : gmap string (gmap string pyval);
  stdout : list string;
  calls : list call;
}.

Definition with_params (p : Params) (s : session) : session :=
  {| params := p; grad := grad s; opt := opt s;
     model_training := model_training s;
     likelihood_training := likelihood_training s;
     names := names s; files := files s;
     stdout := stdout s; calls := calls s |}.
Definition with_grad (g : Grad) (s : session) : session :=
  {| params := params s; grad := g; opt := opt s;
     model_training := model_training s;
     likelihood_training := likelihood_training s;
     names := names s; files := files s;
     stdout := stdout s; calls := calls s |}.
Definition with_opt (o : OptState) (s : session) : session :=
  {| params := params s; grad := grad s; opt := o;
     model_training := model_training s;
     likelihood_training := likelihood_training s;
     names := names s; files := files s;
     stdout := stdout s; calls := calls s |}.
Definition with_model_training (b : bool) (s : session) : session :=
  {| params := params s; grad := grad s; opt := opt s;
     model_training := b;
     likelihood_training := likelihood_training s;
     names := names s; files := files s;
     stdout := stdout s; calls := calls s |}.
Definition with_likelihood_training (b : bool) (s : session) : session :=
  {| params := params s; grad := grad s; opt := opt s;
     model_training := model_training s;
     likelihood_training := b;
     names := names s; files := files s;
     stdout := stdout s; calls := calls s |}.
Definition with_names (n : gmap string pyval) (s : session) : session :=
  {| params := params s; grad := grad s; opt := opt s;
     model_training := model_training s;
     likelihood_training := likelihood_training s;
     names := n; files := files s;
     stdout := stdout s; calls := calls s |}.
Definition with_files (f : gmap string (gmap string pyval)) (s : session)
  : session :=
  {| params := params s; grad := grad s; opt := opt s;
     model_training := model_training s;
     likelihood_training := likelihood_training s;
     names := names s; files := f;
     stdout := stdout s; calls := calls s |}.
Definition with_stdout (o : list string) (s : session) : session :=
  {| params := params s; grad := grad s; opt := opt s;
     model_training := model_training s;
     likelihood_training := likelihood_training s;
     names := names s; files := files s;
     stdout := o; calls := calls s |}.
Definition with_calls (c : list call) (s : session) : session :=
  {| params := params s; grad := grad s; opt := opt s;
     model_training := model_training s;
     likelihood_training := likelihood_training s;
     names := names s; files := files s;
     stdout := stdout s; calls := c |}.

Definition log (c : call) : M session unit :=
  modify (fun s => with_calls (calls s ++ [c]) s).

Local Open Scope py_scope.

(** [print(line)] *)
Definition print (line : string) : M session unit :=
  modify (fun s => with_stdout (stdout s ++ [line]) s).

(** [optimizer.zero_grad()] *)
Definition zero_grad : M session unit :=
  modify (fun s => with_grad (zeroed (grad s)) s) ;; log ZeroGrad.

(** [model(x)] *)
Definition model_call (x : Input) : M session Output :=
  out <- gets (fun s => forward (params s) (model_training s) x) ;;
  log Forward ;; ret out.

(** [mll(output, y)] for the exact and for the variational objective *)
Definition exact_mll_call (output : Output) (y : Target) : M session Scalar :=
  v <- gets (fun s => exact_mll (params s) output y) ;;
  log Loss ;; ret v.
Definition variational_mll_call (num_data : Z) (output : Output) (y : Target)
  : M session Scalar :=
  v <- gets (fun s => variational_mll num_data (params s) output y) ;;
  log Loss ;; ret v.

(** [loss.backward()] *)
Definition backward_call (loss : Scalar) : M session unit :=
  modify (fun s => with_grad (backward loss (grad s)) s) ;; log Backward.

(** [optimizer.step()] *)
Definition optimizer_step : M session unit :=
  modify (fun s =>
            let '(o, p) := optimizer_update (opt s) (grad s) (params s) in
            with_params p (with_opt o s)) ;;
  log OptStep.

(** [scheduler.step()] *)
Definition scheduler_step : M session unit :=
  modify (fun s => with_opt (scheduler_update (opt s)) s) ;; log SchedulerStep.

(** [model.train()], [model.eval()], [likelihood.train()],
    [likelihood.eval()] *)
Definition model_train : M session unit :=
  modify (with_model_training true) ;; log ModelTrain.
Definition model_eval : M session unit :=
  modify (with_model_training false) ;; log ModelEval.
Definition likelihood_train : M session unit :=
  modify (with_likelihood_training true) ;; log LikelihoodTrain.
Definition likelihood_eval : M session unit :=
  modify (with_likelihood_training false) ;; log LikelihoodEval.

(** Reading a global name held in [names]. *)
Definition lookup_name (name : string) : M session pyval :=
  fun s => match names s !! name with
           | Some v => (Ok v, s)
           | None => (Raise (NameError name), s)
           end.

(** [name = v] at the top level of a cell. *)
Definition bind_name (name : string) (v : pyval) : M session unit :=
  modify (fun s => with_names (<[name := v]> (names s)) s).

(** [torch.save(obj, path)] *)
Definition torch_save (obj : gmap string pyval) (path : string)
  : M session unit :=
  modify (fun s => with_files (<[path := obj]> (files s)) s) ;;
  log (Save path).

(** [a / b] on Python integers. *)
Definition truediv (a b : Z) : M session Q :=
  if b =? 0 then raise ZeroDivisionError
  else ret (inject_Z a / inject_Z b)%Q.

(** What a training loop works on, and what it leaves alone. *)
Definition state (s : session) : Params * Grad * OptState :=
  (params s, grad s, opt s).
Definition same_frame (s s' : session) : Prop :=
  model_training s' = model_training s /\
  likelihood_training s' = likelihood_training s /\
  names s' = names s /\ files s' = files s.

End Session.

Arguments loader Input Target : clear implicits.
Arguments pyval {Input Target} L.
Arguments session {Input Target} L.

End Torch.
Import Torch.

(** ** The LOVE notebook: exact GP regression on the skillcraft data *)

Module LOVE.

(** *** Cell 4: features, min/max scaling, target

    [loadmat(DATA)['data']] is a matrix of finite numbers, one inner list
    per row; its entries are rationals here, as every binary64 number is
    one.  [torch.Tensor(...)] converts the matrix to float32 and the cell
    computes in float32: a conversion or an operation returns the
    float32 number nearest to the exact result, ties to even, with
    gradual underflow, and an infinity on overflow.

    A float32 value is a finite number, an infinity or NaN.  The finite
    ones are kept in lowest terms, so that equal numbers are equal terms.
    Zero has no sign: -0 and 0 compare equal, and in the arithmetic of
    the cell the sign of a zero could show only in [x / 0] for [x] other
    than zero, which the cell never computes (it divides by the greatest
    of the numerators, none of which is negative); that case is written
    out below for a positive zero.  The entries read from the file are
    finite, so a NaN arises only inside the cell. *)

Inductive fval : Type :=
| Fin (q : Q)
| Inf (negative : bool)
| NaN.

(** [floor (log2 x)], for [x > 0]. *)
Definition ilog2 (x : Q) : Z :=
  let e := Z.log2 (Qnum x) - Z.log2 (Zpos (Qden x)) in
  if Qle_bool (2 ^ e) x then e else e - 1.

(** The integer nearest to [t], ties to even. *)
Definition rne (t : Q) : Z :=
  let f := Qfloor t in
  match (t - inject_Z f ?= 1 # 2)%Q with
  | Lt => f
  | Gt => f + 1
  | Eq => if Z.even f then f else f + 1
  end.

(** float32 keeps 24 significant bits and its least normal exponent is
    -126: a magnitude [a] in the binade of [2^e] is rounded to a multiple
    of [2^(max e (-126) - 23)]. *)
Definition ulp_exp (a : Q) : Z := Z.max (ilog2 a) (-126) - 23.

Definition rnd_abs (a : Q) : Q :=
  let k := ulp_exp a in (inject_Z (rne (a / 2 ^ k)) * 2 ^ k)%Q.

(** [x] rounded to 24 significant bits, before the test for overflow. *)
Definition rnd32 (x : Q) : Q :=
  let y := rnd_abs (Qabs x) in
  Qred (if Qle_bool 0 x then y else - y).

Definition is_neg (x : Q) : bool := negb (Qle_bool 0 x).

(** The float32 value of the exact result [x]: the rounded number, or an
    infinity when it reaches [2^128]. *)
Definition round32 (x : Q) : fval :=
  let y := rnd32 x in
  if Qle_bool (2 ^ 128) (Qabs y) then Inf (is_neg y) else Fin y.

(** [a - b], [a * b] and [a / b] in float32. *)
Definition f32_sub (a b : fval) : fval :=
  match a, b with
  | NaN, _ | _, NaN => NaN
  | Fin x, Fin y => round32 (x - y)
  | Fin _, Inf s => Inf (negb s)
  | Inf s, Fin _ => Inf s
  | Inf s, Inf s' => if xorb s s' then Inf s else NaN
  end.

Definition f32_mul (a b : fval) : fval :=
  match a, b with
  | NaN, _ | _, NaN => NaN
  | Fin x, Fin y => round32 (x * y)
  | Fin x, Inf s | Inf s, Fin x =>
      if Qeq_bool x 0 then NaN else Inf (xorb s (is_neg x))
  | Inf s, Inf s' => Inf (xorb s s')
  end.

Definition f32_div (a b : fval) : fval :=
  match a, b with
  | NaN, _ | _, NaN => NaN
  | Fin x, Fin y =>
      if Qeq_bool y 0 then
        if Qeq_bool x 0 then NaN else Inf (is_neg x)
      else round32 (x / y)
  | Fin _, Inf _ => Fin 0
  | Inf s, Fin y => Inf (xorb s (is_neg y))
  | Inf _, Inf _ => NaN
  end.

(** [a <= b] in float32; false when either side is NaN. *)
Definition f32_le (a b : fval) : bool :=
  match a, b with
  | NaN, _ | _, NaN => false
  | Inf true, _ | _, Inf false => true
  | Inf false, _ | _, Inf true => false
  | Fin x, Fin y => Qle_bool x y
  end.

(** The lesser and the greater of two values, as [min] and [max] reduce:
    a NaN wins. *)
Definition f32_min (a b : fval) : fval :=
  match a, b with
  | NaN, _ | _, NaN => NaN
  | _, _ => if f32_le a b then a else b
  end.

Definition f32_max (a b : fval) : fval :=
  match a, b with
  | NaN, _ | _, NaN => NaN
  | _, _ => if f32_le a b then b else a
  end.

(** The orders along which [min] and [max] reduce: NaN is below
    everything for [min] and above everything for [max]. *)
Definition min_le (a b : fval) : Prop := a = NaN \/ f32_le a b = true.
Definition max_ge (a b : fval) : Prop := a = NaN \/ f32_le b a = true.

(** [torch.Tensor(loadmat(DATA)['data'])] *)
Definition to_tensor (data : list (list Q)) : list (list fval) :=
  map (map round32) data.

(** [X.min(0)[0]] and [X.max(0)[0]]: the reduction over the rows, one
    result per column.  torch refuses to reduce over a dimension of
    size zero. *)
Definition reduce0 {A} (f : A -> A -> A) (X : list (list A))
  : result (list A) :=
  match X with
  | [] => Raise (RuntimeError "cannot reduce over a dimension of size 0")
  | r :: rs => Ok (fold_left (zip_with f) rs r)
  end.
Definition min0 : list (list fval) -> result (list fval) := reduce0 f32_min.
Definition max0 : list (list fval) -> result (list fval) := reduce0 f32_max.

(** Broadcasting a row vector over the rows of a matrix. *)
Definition sub_rows (X : list (list fval)) (v : list fval)
  : list (list fval) :=
  map (fun row => zip_with f32_sub row v) X.
Definition div_rows (X : list (list fval)) (v : list fval)
  : list (list fval) :=
  map (fun row => zip_with f32_div row v) X.

(** [2 * v - 1] *)
Definition fscale (v : fval) : fval := f32_sub (f32_mul (Fin 2) v) (Fin 1).

(** [data[:, :-1]] *)
Definition features {A} (data : list (list A)) : list (list A) :=
  map (slice_to (-1)) data.

(** [data[:, -1]] *)
Fixpoint target {A} (data : list (list A)) : result (list A) :=
  match data with
  | [] => Ok []
  | row :: rest =>
      match index (-1) row with
      | Raise e => Raise e
      | Ok v => match target rest with
                | Raise e => Raise e
                | Ok vs => Ok (v :: vs)
                end
      end
  end.

(** The cell: [data = torch.Tensor(loadmat(DATA)['data']);
    X = data[:, :-1]; X = X - X.min(0)[0];
    X = 2 * (X / X.max(0)[0]) - 1; y = data[:, -1]]. *)
Definition normalize_cell (data : list (list Q))
  : result (list (list fval) * list fval) :=
  let data := to_tensor data in
  let X := features data in
  match min0 X with
  | Raise e => Raise e
  | Ok mn =>
      let X := sub_rows X mn in
      match max0 X with
      | Raise e => Raise e
      | Ok mx =>
          let X := map (map fscale) (div_rows X mx) in
          match target data with
          | Raise e => Raise e
          | Ok y => Ok (X, y)
          end
      end
  end.

(** Entry [(i, j)] and column [j] of a matrix, and the matrices of [r]
    rows and [c] columns. *)
Definition entry {A} (X : list (list A)) (i j : nat) : option A :=
  X !! i ≫= (.!! j).
Definition column {A} (X : list (list A)) (j : nat) : list A :=
  omap (.!! j) X.
Definition is_tensor2 {A} (r c : nat) (X : list (list A)) : Prop :=
  length X = r /\ Forall (fun row => length row = c) X.


Definition f32_constant (T : list (list fval)) (j : nat) : Prop :=
  forall i i' u v,
    entry T i j = Some u -> entry T i' j = Some v -> u = v.

(** Column [j] of the tensor holds finite numbers only, [lo] is the least
    of them and [hi] the greatest. *)
Definition f32_range (T : list (list fval)) (j : nat) (lo hi : Q) : Prop :=
  (exists i, entry T i j = Some (Fin lo)) /\
  (exists i, entry T i j = Some (Fin hi)) /\
  (forall i v, entry T i j = Some v ->
               exists a, v = Fin a /\ (lo <= a)%Q /\ (a <= hi)%Q).

(** [2 * ((a - lo) / (hi - lo)) - 1] in float32, each operation rounded,
    when no operation leaves the finite numbers. *)
Definition scale32 (lo hi a : Q) : Q :=
  rnd32 (rnd32 (2 * rnd32 (rnd32 (a - lo) / rnd32 (hi - lo))) - 1).

(** Column [j] of [X] is finite with minimum -1 and maximum 1. *)
Definition unit_range_column (X : list (list fval)) (j : nat) : Prop :=
  (forall i v, entry X i j = Some v ->
               exists q, v = Fin q /\ (-1 <= q)%Q /\ (q <= 1)%Q) /\
  (exists i q, entry X i j = Some (Fin q) /\ (q == -1)%Q) /\
  (exists i q, entry X i j = Some (Fin q) /\ (q == 1)%Q).

(** *** Cell 5: the 40/60 split

    [train_n = int(math.floor(0.4*len(X)))] is computed in binary64.  A
    non-negative binary64 number is a pair [(m, e)] standing for
    [m * 2^e] with [m <= 2^53]; exponent range limits (overflow,
    subnormals) are not modelled. *)

(** [p / 2^s] rounded to the nearest integer, ties to even. *)
Definition rne_shift (p s : Z) : Z :=
  if s <=? 0 then p
  else
    let q := Z.shiftr p s in
    let rem := p - Z.shiftl q s in
    let half := Z.shiftl 1 (s - 1) in
    if rem <? half then q
    else if half <? rem then q + 1
    else if Z.even q then q else q + 1.

(** The binary64 number nearest to [p * 2^e], for [p >= 0]: keep 53
    significant bits. *)
Definition round53 (p e : Z) : Z * Z :=
  let s := Z.max 0 (Z.log2 p + 1 - 53) in
  (rne_shift p s, e + s).

Definition f64_of_int (n : Z) : Z * Z := round53 n 0.
Definition f64_mul (a b : Z * Z) : Z * Z := round53 (a.1 * b.1) (a.2 + b.2).
Definition f64_floor (a : Z * Z) : Z := Z.shiftl a.1 a.2.

(** The literal [0.4] denotes the binary64 number 0x1.999999999999ap-2. *)
Definition lit_0_4 : Z * Z := (3602879701896397, -53).

(** [int(math.floor(0.4*n))] *)
Definition train_n (n : Z) : Z := f64_floor (f64_mul lit_0_4 (f64_of_int n)).

(** The cell, for the feature rows [X] and the targets [y]
    ([.contiguous()] copies and does not change values):
    [(train_x, train_y, test_x, test_y)]. *)
Definition split_cell {A B} (X : list A) (y : list B)
  : list A * list B * list A * list B :=
  let k := train_n (Z.of_nat (length X)) in
  (slice_to k X, slice_to k y, slice_from k X, slice_from k y).

(** *** Cells 8 and 9: training, and cell 12: cleanup

    [train_x] and [train_y] are the globals bound by cell 5.  The
    progress bar of [tnrange] is a widget and is not part of [stdout]. *)

Section Training.
Context `{L : Library (list (list fval)) (list fval)}.
Variable train_x : list (list fval).
Variable train_y : list fval.

Local Open Scope py_scope.

(** The body of the [for] loop of [train(n)]. *)
Definition train_body (n i : Z) : M (session L) unit :=
  zero_grad ;;
  output <- model_call train_x ;;
  v <- exact_mll_call output train_y ;;
  let loss := neg v in
  backward_call loss ;;
  print (fmt_d 3 (i + 1) +:+ "/" +:+ fmt_d 3 n +:+ " | Loss: "
         +:+ fmt_loss 3 loss) ;;
  optimizer_step.

(** [def train(n)] *)
Definition train (n : Z) : M (session L) unit :=
  let pbar := range n in
  for_each pbar (train_body n).

(** [def cleanup()] *)
Definition cleanup : M (session L) unit :=
  log GcCollect ;;
  log EmptyCache ;;
  model_train ;;
  likelihood_train.

(** What one pass through the loop body does to the parameters, the
    gradient buffers and the optimizer, as a pure function. *)
Definition loss_at (training : bool) (p : Params) : Scalar :=
  neg (exact_mll p (forward p training train_x) train_y).
Definition update (training : bool) (st : Params * Grad * OptState)
  : Params * Grad * OptState :=
  let '(p, g, o) := st in
  let g' := backward (loss_at training p) (zeroed g) in
  let '(o', p') := optimizer_update o g' p in
  (p', g', o').

(** The line iteration [i] prints when the parameters are [p]. *)
Definition progress_line (training : bool) (n : Z) (i : nat) (p : Params)
  : string :=
  fmt_d 3 (Z.of_nat i + 1) +:+ "/" +:+ fmt_d 3 n +:+ " | Loss: "
  +:+ fmt_loss 3 (loss_at training p).

(** The lines of iterations [i], ..., [i + k - 1], started in [st]. *)
Fixpoint progress_lines (training : bool) (n : Z) (i k : nat)
    (st : Params * Grad * OptState) : list string :=
  match k with
  | O => []
  | S k' => progress_line training n i st.1.1
            :: progress_lines training n (S i) k' (update training st)
  end.

End Training.

(** *** Cell 3: fetching the data file

    The file system and [urllib.request.urlretrieve] are parameters:
    [isfile fs path] is [os.path.isfile(path)] and [urlretrieve url path]
    fetches [url] into [path] or raises.  The state of the cell is the file
    system and the lines printed. *)

Definition DATA : string := "data/skillcraft.mat".
Definition url : string :=
  "https://drive.google.com/uc?export=download&id=1xQ1vgx_bOsLDQ3RLbJwPxMyJHW7U9Eqd".
Definition download_message : string :=
  "Downloading 'skillcraft' UCI dataset...".

Section Download.
Variable FS : Type.
Variable isfile : FS -> string -> bool.
Variable urlretrieve : string -> string -> M FS unit.

(** [if not os.path.isfile(DATA): print(...); urlretrieve(url, DATA)] *)
Definition download_cell : M (FS * list string) unit :=
  fun '(fs, out) =>
    if negb (isfile fs DATA) then
      let out := out ++ [download_message] in
      match urlretrieve url DATA fs with
      | (Ok _, fs') => (Ok tt, (fs', out))
      | (Raise e, fs') => (Raise e, (fs', out))
      end
    else (Ok tt, (fs, out)).

End Download.

End LOVE.

(** ** The deep-kernel-learning notebook: DenseNet + GP layer on CIFAR *)

Module DKL.

(** *** Cells 2 to 4: transforms and dataset selection

    Constructing a dataset (with its download) and a [DataLoader] is
    library code; here a constructor call is recorded with its
    arguments and is taken to return normally. *)

Inductive transform : Type :=
| RandomCrop (size padding : Z)
| RandomHorizontalFlip
| ToTensor
| Normalize (mean std : list Q).

Definition normalize : transform :=
  Normalize [5071 # 10000; 4867 # 10000; 4408 # 10000]%Q
            [2675 # 10000; 2565 # 10000; 2761 # 10000]%Q.
Definition crop : transform := RandomCrop 32 4.
Definition flip : transform := RandomHorizontalFlip.
Definition common_trans : list transform := [ToTensor; normalize].
Definition train_compose : list transform := [crop; flip] ++ common_trans.
Definition test_compose : list transform := common_trans.

Inductive dataset_class : Type := CIFAR10 | CIFAR100.

(** [datasets.CIFAR10(root, train=..., transform=..., download=...)] *)
Record dataset_cfg : Type := {
  ds_class : dataset_class;
  ds_root : string;
  ds_train : bool;
  ds_transform : list transform;
  ds_download : bool;
}.

(** [DataLoader(dataset, batch_size=..., shuffle=..., num_workers=...,
    pin_memory=...)] *)
Record loader_cfg : Type := {
  ld_dataset : dataset_cfg;
  ld_batch_size : Z;
  ld_shuffle : bool;
  ld_num_workers : Z;
  ld_pin_memory : bool;
}.

(** The names the selection cell binds. *)
Record selection : Type := {
  d_func : dataset_class;
  train_set : dataset_cfg;
  test_set : dataset_cfg;
  train_loader : loader_cfg;
  test_loader : loader_cfg;
  num_classes : Z;
}.

Definition dq : string := String "034"%char EmptyString.

(** The message of the [RuntimeError] of the [else] branch. *)
Definition selection_error : string :=
  "dataset must be either " +:+ dq +:+ "cifar10" +:+ dq +:+ " or "
  +:+ dq +:+ "cifar100" +:+ dq.

Definition make_selection (c : dataset_class) (classes : Z) : selection :=
  let train_set := {| ds_class := c; ds_root := "data"; ds_train := true;
                      ds_transform := train_compose; ds_download := true |} in
  let test_set := {| ds_class := c; ds_root := "data"; ds_train := false;
                     ds_transform := test_compose; ds_download := false |} in
  {| d_func := c;
     train_set := train_set;
     test_set := test_set;
     train_loader := {| ld_dataset := train_set; ld_batch_size := 64;
                        ld_shuffle := true; ld_num_workers := 3;
                        ld_pin_memory := true |};
     test_loader := {| ld_dataset := test_set; ld_batch_size := 64;
                       ld_shuffle := true; ld_num_workers := 3;
                       ld_pin_memory := true |};
     num_classes := classes |}.

(** The [if dataset == 'cifar10': ... elif dataset == 'cifar100': ...
    else: raise RuntimeError(...)] cell. *)
Definition select_dataset (dataset : string) : result selection :=
  if String.eqb dataset "cifar10" then Ok (make_selection CIFAR10 10)
  else if String.eqb dataset "cifar100" then Ok (make_selection CIFAR100 100)
  else Raise (RuntimeError selection_error).

(** The allowed dataset names. *)
Definition allowed : gset string := {["cifar10"; "cifar100"]}.

(** *** Training, testing and the epoch loop

    [train_loader] and [test_loader] are the globals bound by the
    selection cell, given by the batches one pass over them yields.  The
    loaders shuffle and the training transforms are random, so another
    pass yields other batches, as many of them: of a run of several
    epochs only what does not depend on the batches drawn is stated. *)

Definition n_epochs : Z := 100.
Definition checkpoint_path : string := "dkl_cifar_checkpoint.dat".

Section Harness.
Context {Input Target : Type} `{L : Library Input Target}.
Variable train_loader : loader Input Target.
Variable test_loader : loader Input Target.

Local Open Scope py_scope.

(** [len(loader)] *)
Definition len (l : loader Input Target) : Z := Z.of_nat (length (batches l)).

(** The body of the [for] loop of [train(epoch)]. *)
Definition train_body (epoch num_data : Z) (item : Z * (Input * Target))
  : M (session L) unit :=
  let '(batch_idx, (data, target)) := item in
  zero_grad ;;
  output <- model_call data ;;
  v <- variational_mll_call num_data output target ;;
  let loss := neg v in
  backward_call loss ;;
  (if (batch_idx + 1) mod 50 =? 0 then
     print ("Epoch: " +:+ pretty epoch +:+ " | " +:+ fmt_d 3 (batch_idx + 1)
            +:+ "/" +:+ fmt_d 3 (len train_loader) +:+ ", Loss: "
            +:+ fmt_loss 6 loss)
   else ret tt) ;;
  optimizer_step.

(** [def train(epoch, lr=0.1)] *)
Definition train (epoch : Z) : M (session L) unit :=
  model_train ;;
  likelihood_train ;;
  let num_data := dataset_len train_loader in
  let train_loss := 0 in
  let pbar := batches train_loader in
  for_each (enumerate pbar) (train_body epoch num_data).

(** The locals [(test_loss, correct)] of [test()] when it reaches its
    [print] statement. *)
Definition test_locals : M (session L) (Q * Z) :=
  model_eval ;;
  likelihood_eval ;;
  let test_loss := 0 in
  let correct := 0 in
  locals <- for_fold (batches test_loader) (test_loss, correct)
              (fun '(test_loss, correct) '(data, target) =>
                 c <- gets (fun s => count_correct (params s) data target) ;;
                 log Predict ;;
                 ret (test_loss, correct + c)) ;;
  let '(test_loss, correct) := locals in
  test_loss <- truediv test_loss (dataset_len test_loader) ;;
  ret (test_loss, correct).

(** [def test()]: the [print] statement reads the global [tes_loader]. *)
Definition test : M (session L) unit :=
  locals <- test_locals ;;
  let '(test_loss, correct) := locals in
  v <- lookup_name "tes_loader" ;;
  n <- match v with
       | VLoader l => ret (dataset_len l)
       | _ => raise (AttributeError "dataset")
       end ;;
  print ("Test Set | Average Loss: " +:+ fmt_f 4 test_loss
         +:+ ", Accuracy: " +:+ fmt_accuracy correct n +:+ "%").

(** The body of the epoch loop.  The [with] block sets two gpytorch
    options for the calls inside it; options are not modelled. *)
Definition epoch_body (epoch : Z) : M (session L) unit :=
  bind_name "epoch" (VInt epoch) ;;
  scheduler_step ;;
  train epoch ;;
  test ;;
  sd <- gets (fun s => model_state_dict (params s)) ;;
  bind_name "stat_dict" (VStateDict sd) ;;
  lsd <- gets (fun s => likelihood_state_dict (params s)) ;;
  bind_name "likelihood_state_dict" (VStateDict lsd) ;;
  v_model <- lookup_name "state_dict" ;;
  v_likelihood <- lookup_name "likelihood_state_dict" ;;
  torch_save (<["model" := v_model]> (<["likelihood" := v_likelihood]> ∅))
             checkpoint_path.

(** [for epoch in range(1, n_epochs + 1): ...], for any value of the
    global [n_epochs], and the cell itself. *)
Definition epoch_loop (n : Z) : M (session L) unit :=
  for_each (range2 1 (n + 1)) epoch_body.
Definition train_the_model : M (session L) unit := epoch_loop n_epochs.

(** What one pass through the body of [train] does to the parameters,
    the gradient buffers and the optimizer, as a pure function, and the
    line it prints on every 50th batch. *)
Definition loss_at (p : Params) (batch : Input * Target) : Scalar :=
  neg (variational_mll (dataset_len train_loader) p
         (forward p true batch.1) batch.2).
Definition update (st : Params * Grad * OptState) (batch : Input * Target)
  : Params * Grad * OptState :=
  let '(p, g, o) := st in
  let g' := backward (loss_at p batch) (zeroed g) in
  let '(o', p') := optimizer_update o g' p in
  (p', g', o').
Definition progress_line (epoch : Z) (i : nat) (p : Params)
    (batch : Input * Target) : string :=
  "Epoch: " +:+ pretty epoch +:+ " | " +:+ fmt_d 3 (Z.of_nat i + 1)
  +:+ "/" +:+ fmt_d 3 (len train_loader) +:+ ", Loss: "
  +:+ fmt_loss 6 (loss_at p batch).
Fixpoint progress_lines (epoch : Z) (i : nat) (bs : list (Input * Target))
    (st : Params * Grad * OptState) : list string :=
  match bs with
  | [] => []
  | b :: bs' =>
      (if (Z.of_nat i + 1) mod 50 =? 0
       then [progress_line epoch i st.1.1 b] else [])
      ++ progress_lines epoch (S i) bs' (update st b)
  end.

(** [correct] after the batch loop of [test], for parameters [p]: the
    counts of the batches, added up from 0 in the order of the loader. *)
Definition total_correct (p : Params) (bs : list (Input * Target)) : Z :=
  fold_left (fun correct b => correct + count_correct p b.1 b.2) bs 0.



(** What the claimed checkpoint of a session would hold. *)
Definition current_checkpoint (s : session L) : gmap string (pyval L) :=
  <["model" := VStateDict (model_state_dict (params s))]>
    (<["likelihood" := VStateDict (likelihood_state_dict (params s))]> ∅).

End Harness.

End DKL.

(** ** A stub library that counts

    Used to run the cells on concrete sessions: the parameters count the
    gradient passes applied by optimizer steps, the gradient buffer counts
    the backward passes since it was last cleared, and the optimizer state
    counts its steps. *)

Module Stub.

Definition counting (Input Target : Type) : Library Input Target :=
  {| Params := Z;
     Grad := Z;
     OptState := Z;
     Output := Z;
     Scalar := Z;
     StateDict := Z;
     forward p _ _ := p;
     exact_mll p out _ := out;
     variational_mll _ p out _ := out;
     neg s := - s;
     backward _ g := g + 1;
     zeroed _ := 0;
     optimizer_update o g p := (o + 1, p + g);
     scheduler_update o := o;
     count_correct _ _ _ := 1;
     model_state_dict p := p;
     likelihood_state_dict p := p;
     fmt_loss _ s := pretty s;
     fmt_f _ q := pretty (Qnum q) +:+ "/" +:+ pretty (Zpos (Qden q));
     fmt_accuracy c n := pretty c +:+ " of " +:+ pretty n |}.

(** A session right after the model and optimizer were built. *)
Definition fresh {Input Target : Type} : session (counting Input Target) :=
  @Build_session Input Target (counting Input Target)
    0 0 0 true true ∅ ∅ [] [].

(** Two small data matrices, the last column being the target: one
    whose feature columns vary, one whose feature column is constant. *)
Definition sample : list (list Q) :=
  [[1; 10; 5]; [3; 20; 7]; [2; 30; 9]]%Q.

(** A session of the stub that binds [state_dict] and [tes_loader]. *)
Definition repaired (l : loader unit unit) : session (counting unit unit) :=
  with_names (<["state_dict" := VInt 42]> (<["tes_loader" := VLoader l]> ∅))
    fresh.

(** A file system that is the set of its file paths, where a download
    creates the file. *)
Definition set_isfile (fs : gset string) (path : string) : bool :=
  bool_decide (path ∈ fs).
Definition set_urlretrieve (url path : string) : M (gset string) unit :=
  fun fs => (Ok tt, {[path]} ∪ fs).

(** A loader of [n] batches of unit inputs over a dataset of [d] items. *)
Definition unit_loader (n : nat) (d : Z) : loader unit unit :=
  {| batches := replicate n (tt, tt); dataset_len := d |}.

End Stub.

(** * Properties *)

(** ** The monad, ranges and slices *)

Module PyFacts.

Lemma bind_ok {W A B} (c : M W A) (k : A -> M W B) s a s1 :
  c s = (Ok a, s1) -> bind c k s = k a s1.
Proof. intros H. unfold bind. by rewrite H. Qed.

Lemma bind_raise {W A B} (c : M W A) (k : A -> M W B) s e s1 :
  c s = (Raise e, s1) -> bind c k s = (Raise e, s1).
Proof. intros H. unfold bind. by rewrite H. Qed.

Lemma range2_cons lo hi : lo < hi -> range2 lo hi = lo :: range2 (lo + 1) hi.
Proof.
  intros H. unfold range2.
  replace (Z.to_nat (hi - lo)) with (S (Z.to_nat (hi - (lo + 1)))) by lia.
  cbn [seq map]. f_equal; [lia |].
  rewrite <- seq_shift, map_map. apply map_ext. intros a. lia.
Qed.

Lemma slice_bound_nonneg k n :
  0 <= k <= Z.of_nat n -> slice_bound k n = Z.to_nat k.
Proof.
  intros [H0 H1]. unfold slice_bound.
  destruct (Z.ltb_spec k 0); lia.
Qed.

(** [xs[:k]] and [xs[k:]] always split [xs] in two. *)
Lemma slice_to_from {A} k (xs : list A) : slice_to k xs ++ slice_from k xs = xs.
Proof. apply take_drop. Qed.

Lemma slice_to_last {A} (row : list A) c :
  length row = S c -> slice_to (-1) row = take c row.
Proof.
  intros H. unfold slice_to, slice_bound. rewrite H. simpl.
  f_equal. lia.
Qed.

Lemma index_last {A} (row : list A) c x :
  length row = S c -> row !! c = Some x -> index (-1) row = Ok x.
Proof.
  intros Hlen Hx. unfold index. rewrite Hlen.
  change (-1 <? 0) with true. cbv iota.
  replace (Z.of_nat (S c) + -1) with (Z.of_nat c) by lia.
  destruct (Z.leb_spec 0 (Z.of_nat c)); [| lia].
  destruct (Z.ltb_spec (Z.of_nat c) (Z.of_nat (S c))); [| lia]. cbn [andb].
  by rewrite Nat2Z.id, Hx.
Qed.

End PyFacts.

(** ** Sessions and call traces *)

Module TorchFacts.
Import PyFacts.

Section Frames.
Context {Input Target : Type} `{L : Library Input Target}.

Lemma same_frame_refl (s : session L) : same_frame s s.
Proof. by repeat split. Qed.

Lemma same_frame_trans (s1 s2 s3 : session L) :
  same_frame s1 s2 -> same_frame s2 s3 -> same_frame s1 s3.
Proof. intros (?&?&?&?) (?&?&?&?). repeat split; congruence. Qed.

End Frames.

Lemma count_app c (l1 l2 : list call) :
  count c (l1 ++ l2) = (count c l1 + count c l2)%nat.
Proof. unfold count. by rewrite filter_app, length_app. Qed.

Lemma count_replicate_ne c c' k : c' <> c -> count c (replicate k c') = 0%nat.
Proof.
  intros H. unfold count. induction k as [|k IH]; [done |].
  cbn [replicate]. rewrite filter_cons_False by done. exact IH.
Qed.

Lemma count_iteration_calls k :
  count OptStep (concat (replicate k iteration_calls)) = k.
Proof.
  induction k as [|k IH]; [done |].
  cbn [replicate concat]. by rewrite count_app, IH.
Qed.

End TorchFacts.

(** ** float32 rounding *)

Module F32Facts.
Import LOVE.
Local Open Scope Q_scope.

(** *** Powers of two and the binade of a number *)

Lemma pow2_pos e : 0 < 2 ^ e.
Proof. apply Qpower_0_lt. reflexivity. Qed.

Lemma pow2_add a b : 2 ^ (a + b) == 2 ^ a * 2 ^ b.
Proof. apply Qpower_plus. discriminate. Qed.

Lemma pow2_sub a b : 2 ^ (a - b) * 2 ^ b == 2 ^ a.
Proof.
  rewrite <- pow2_add. apply Qpower_comp; [reflexivity | lia].
Qed.

Lemma pow2_le a b : (a <= b)%Z -> 2 ^ a <= 2 ^ b.
Proof. intros H. apply Qpower_le_compat_l; [exact H | discriminate]. Qed.

Lemma pow2_lt a b : (a < b)%Z -> 2 ^ a < 2 ^ b.
Proof. intros H. apply Qpower_lt_compat_l; [exact H | reflexivity]. Qed.

Lemma pow2_lt_inv a b : 2 ^ a < 2 ^ b -> (a < b)%Z.
Proof. intros H. apply (Qpower_lt_compat_l_inv 2); [exact H | reflexivity]. Qed.

Lemma pow2_Z n : (0 <= n)%Z -> 2 ^ n == inject_Z (2 ^ n).
Proof. intros H. symmetry. apply (Zpower_Qpower 2 n H). Qed.

Lemma pow2_succ a : 2 ^ (a + 1) == 2 * 2 ^ a.
Proof. rewrite pow2_add. change (2 ^ 1) with 2. ring. Qed.

(** [ilog2 x] is the exponent of the binade of [x]. *)
Lemma ilog2_spec x : 0 < x -> 2 ^ ilog2 x <= x /\ x < 2 ^ (ilog2 x + 1).
Proof.
  intros Hx. destruct x as [n d].
  assert (0 < n)%Z as Hn by (unfold Qlt in Hx; simpl in Hx; lia).
  unfold ilog2. cbn [Qnum Qden].
  set (a := Z.log2 n). set (b := Z.log2 (Zpos d)).
  destruct (Z.log2_spec n Hn) as [Ha1 Ha2].
  destruct (Z.log2_spec (Zpos d) ltac:(lia)) as [Hb1 Hb2].
  fold a in Ha1, Ha2. fold b in Hb1, Hb2.
  assert (0 <= a)%Z as Ha0 by apply Z.log2_nonneg.
  assert (0 <= b)%Z as Hb0 by apply Z.log2_nonneg.
  set (x := n # d) in *.
  set (N := inject_Z n). set (D := inject_Z (Zpos d)).
  assert (x * D == N) as Hx' by (unfold x, N, D; rewrite (Qmake_Qdiv n d); field; discriminate).
  assert (2 ^ a <= N) as HA1 by (rewrite pow2_Z by done; unfold N; by rewrite <- Zle_Qle).
  assert (N < 2 * 2 ^ a) as HA2.
  { rewrite <- pow2_succ, pow2_Z by lia. unfold N. by rewrite <- Zlt_Qlt. }
  assert (2 ^ b <= D) as HB1 by (rewrite pow2_Z by done; unfold D; by rewrite <- Zle_Qle).
  assert (D < 2 * 2 ^ b) as HB2.
  { rewrite <- pow2_succ, pow2_Z by lia. unfold D. by rewrite <- Zlt_Qlt. }
  pose proof (pow2_sub a b) as HP. pose proof (pow2_pos (a - b)) as HP0.
  pose proof (pow2_pos a) as HA0. pose proof (pow2_pos b) as HB0.
  set (P := 2 ^ (a - b)) in *. set (A := 2 ^ a) in *. set (B := 2 ^ b) in *.
  destruct (Qle_bool P x) eqn:E.
  - apply Qle_bool_iff in E. split; [exact E |].
    rewrite pow2_succ. fold P.
    apply Qnot_le_lt. intros Hc.
    assert (2 * P * D <= x * D) by (apply Qmult_le_compat_r; lra).
    assert (P * B <= P * D) by (apply Qmult_le_l; lra).
    nra.
  - assert (x < P) as E'.
    { apply Qnot_le_lt. intros Hc. apply Qle_bool_iff in Hc. congruence. }
    split; [| replace (a - b - 1 + 1)%Z with (a - b)%Z by lia; exact E'].
    assert (2 ^ (a - b - 1) * 2 == P) as HP'.
    { unfold P. by rewrite <- (pow2_sub (a - b) 1). }
    apply Qnot_lt_le. intros Hc.
    assert (x * D < x * (2 * B)) by (apply Qmult_lt_l; lra).
    assert (2 * x < P) by lra.
    assert (2 * x * B < P * B) by (apply Qmult_lt_r; lra).
    nra.
Qed.

Lemma ilog2_unique x e : 0 < x -> 2 ^ e <= x -> x < 2 ^ (e + 1) -> ilog2 x = e.
Proof.
  intros Hx H1 H2. destruct (ilog2_spec x Hx) as [H3 H4].
  assert (2 ^ e < 2 ^ (ilog2 x + 1)) as Ha by lra.
  assert (2 ^ ilog2 x < 2 ^ (e + 1)) as Hb by lra.
  apply pow2_lt_inv in Ha, Hb. lia.
Qed.

Lemma ilog2_comp x y : 0 < x -> x == y -> ilog2 x = ilog2 y.
Proof.
  intros Hx E. assert (0 < y) as Hy by lra.
  destruct (ilog2_spec y Hy). apply ilog2_unique; lra.
Qed.

Lemma ilog2_mono x y : 0 < x -> x <= y -> (ilog2 x <= ilog2 y)%Z.
Proof.
  intros Hx Hxy. assert (0 < y) as Hy by lra.
  destruct (ilog2_spec x Hx), (ilog2_spec y Hy).
  assert (2 ^ ilog2 x < 2 ^ (ilog2 y + 1)) as Ha by lra.
  apply pow2_lt_inv in Ha. lia.
Qed.

Lemma ilog2_pow2 e : ilog2 (2 ^ e) = e.
Proof.
  apply ilog2_unique; [apply pow2_pos | lra | apply pow2_lt; lia].
Qed.

(** *** Rounding to the nearest integer, ties to even *)

Lemma rne_comp t t' : t == t' -> rne t = rne t'.
Proof.
  intros E. unfold rne. rewrite (Qfloor_comp t t' E).
  assert ((t - inject_Z (Qfloor t') ?= 1 # 2) = (t' - inject_Z (Qfloor t') ?= 1 # 2))
    as -> by (by rewrite E).
  reflexivity.
Qed.

Lemma rne_Z z : rne (inject_Z z) = z.
Proof.
  unfold rne. rewrite Qfloor_Z.
  destruct (Qcompare_spec (inject_Z z - inject_Z z) (1 # 2)); [lra | done | lra].
Qed.

Lemma rne_floor t : (Qfloor t <= rne t <= Qfloor t + 1)%Z.
Proof.
  unfold rne. destruct (_ ?= _); [destruct (Z.even _) | |]; lia.
Qed.

Lemma rne_mono t t' : t <= t' -> (rne t <= rne t')%Z.
Proof.
  intros H. pose proof (Qfloor_resp_le t t' H) as Hf.
  pose proof (rne_floor t). pose proof (rne_floor t').
  destruct (Z.eq_dec (Qfloor t) (Qfloor t')) as [E | E]; [| lia].
  unfold rne in *. rewrite <- E in *.
  set (f := Qfloor t) in *.
  destruct (Qcompare_spec (t - inject_Z f) (1 # 2));
    destruct (Qcompare_spec (t' - inject_Z f) (1 # 2));
    try destruct (Z.even f); try lia; lra.
Qed.

Lemma rne_nonneg t : 0 <= t -> (0 <= rne t)%Z.
Proof. intros H. rewrite <- (rne_Z 0). by apply rne_mono. Qed.

(** *** Rounding a magnitude to 24 significant bits *)

Lemma ulp_exp_ge a : (-149 <= ulp_exp a)%Z.
Proof. unfold ulp_exp. lia. Qed.

Lemma grid_mono k t t' :
  t <= t' -> inject_Z (rne (t / 2 ^ k)) * 2 ^ k <= inject_Z (rne (t' / 2 ^ k)) * 2 ^ k.
Proof.
  intros H. pose proof (pow2_pos k).
  apply Qmult_le_compat_r; [| lra].
  rewrite <- Zle_Qle. apply rne_mono.
  apply Qmult_le_compat_r; [done |]. apply Qinv_le_0_compat. lra.
Qed.

Lemma grid_exact k e :
  (k <= e)%Z -> inject_Z (rne (2 ^ e / 2 ^ k)) * 2 ^ k == 2 ^ e.
Proof.
  intros H. pose proof (pow2_pos k).
  assert (2 ^ e / 2 ^ k == inject_Z (2 ^ (e - k))) as E.
  { rewrite <- pow2_Z by lia. rewrite <- (pow2_sub e k). field. lra. }
  rewrite (rne_comp _ _ E), rne_Z, <- pow2_Z by lia. apply pow2_sub.
Qed.

Lemma rnd_abs_zero a : a == 0 -> rnd_abs a == 0.
Proof.
  intros E. unfold rnd_abs.
  assert (a / 2 ^ ulp_exp a == inject_Z 0) as E'.
  { generalize (2 ^ ulp_exp a). intros p. rewrite E. unfold Qdiv. ring. }
  rewrite (rne_comp _ _ E'), rne_Z. ring.
Qed.

Lemma rnd_abs_nonneg a : 0 <= a -> 0 <= rnd_abs a.
Proof.
  intros H. unfold rnd_abs. pose proof (pow2_pos (ulp_exp a)).
  apply Qmult_le_0_compat; [| lra].
  change 0 with (inject_Z 0). rewrite <- Zle_Qle. apply rne_nonneg.
  apply Qle_shift_div_l; lra.
Qed.

Lemma rnd_abs_comp a b : 0 <= a -> a == b -> rnd_abs a == rnd_abs b.
Proof.
  intros Ha E. destruct (Qeq_dec a 0) as [Z0 | NZ].
  - rewrite !rnd_abs_zero; [reflexivity | lra | done].
  - unfold rnd_abs, ulp_exp. rewrite (ilog2_comp a b) by lra.
    set (k := (_ - 23)%Z).
    assert (a / 2 ^ k == b / 2 ^ k) as E' by (by rewrite E).
    by rewrite (rne_comp _ _ E').
Qed.

(** The binade of a positive magnitude, subnormals counted in the
    lowest. *)
Lemma binade_upper a : 0 < a -> a < 2 ^ (Z.max (ilog2 a) (-126) + 1).
Proof.
  intros Ha. destruct (ilog2_spec a Ha) as [_ H].
  eapply Qlt_le_trans; [exact H |]. apply pow2_le. lia.
Qed.

Lemma rnd_abs_mono a b : 0 <= a -> a <= b -> rnd_abs a <= rnd_abs b.
Proof.
  intros Ha Hab. destruct (Qeq_dec a 0) as [Z0 | NZ].
  { rewrite (rnd_abs_zero a Z0). apply rnd_abs_nonneg. lra. }
  assert (0 < a) as Ha' by lra. assert (0 < b) as Hb' by lra.
  pose proof (ilog2_mono a b Ha' Hab) as Hlog.
  unfold rnd_abs, ulp_exp.
  set (ea := Z.max (ilog2 a) (-126)). set (eb := Z.max (ilog2 b) (-126)).
  destruct (Z.eq_dec ea eb) as [E | E].
  - rewrite E. by apply grid_mono.
  - assert (ea < eb)%Z as Hlt by lia.
    assert (eb = ilog2 b) as Heb by lia.
    destruct (ilog2_spec b Hb') as [Hb1 _]. rewrite <- Heb in Hb1.
    pose proof (binade_upper a Ha') as Ha1. fold ea in Ha1.
    apply Qle_trans with (2 ^ (ea + 1)).
    + rewrite <- (grid_exact (ea - 23) (ea + 1)) by lia.
      apply grid_mono. lra.
    + apply Qle_trans with (2 ^ eb); [apply pow2_le; lia |].
      rewrite <- (grid_exact (eb - 23) eb) at 1 by lia.
      by apply grid_mono.
Qed.

(** *** [rnd32] *)

Lemma rnd32_val x :
  rnd32 x == if Qle_bool 0 x then rnd_abs x else - rnd_abs (- x).
Proof.
  unfold rnd32. rewrite Qred_correct.
  destruct (Qle_bool 0 x) eqn:E.
  - apply Qle_bool_iff in E. apply rnd_abs_comp; [apply Qabs_nonneg |].
    by apply Qabs_pos.
  - assert (x < 0) as Hx.
    { apply Qnot_le_lt. intros Hc. apply Qle_bool_iff in Hc. congruence. }
    apply Qopp_comp. apply rnd_abs_comp; [apply Qabs_nonneg |].
    apply Qabs_neg. lra.
Qed.

Lemma Qle_bool_comp x y : x == y -> Qle_bool 0 x = Qle_bool 0 y.
Proof.
  intros E. destruct (Qle_bool 0 y) eqn:Hy.
  - apply Qle_bool_iff. apply Qle_bool_iff in Hy. lra.
  - destruct (Qle_bool 0 x) eqn:Hx; [| done].
    apply Qle_bool_iff in Hx. assert (0 <= y) as Hc by lra.
    apply Qle_bool_iff in Hc. congruence.
Qed.

Lemma rnd32_comp x y : x == y -> rnd32 x = rnd32 y.
Proof.
  intros E. unfold rnd32. apply Qred_complete.
  rewrite (Qle_bool_comp x y E).
  assert (rnd_abs (Qabs x) == rnd_abs (Qabs y)) as H
    by (apply rnd_abs_comp; [apply Qabs_nonneg | by apply Qabs_wd]).
  destruct (Qle_bool 0 y); [exact H | by apply Qopp_comp].
Qed.

Lemma rnd32_pos x : 0 <= x -> rnd32 x == rnd_abs x.
Proof.
  intros H. rewrite rnd32_val. apply Qle_bool_iff in H. by rewrite H.
Qed.

Lemma rnd32_neg x : x < 0 -> rnd32 x == - rnd_abs (- x).
Proof.
  intros H. rewrite rnd32_val.
  destruct (Qle_bool 0 x) eqn:E; [| reflexivity].
  apply Qle_bool_iff in E. lra.
Qed.

Lemma rnd32_mono x y : x <= y -> rnd32 x <= rnd32 y.
Proof.
  intros H.
  destruct (Qlt_le_dec x 0) as [Hx | Hx]; destruct (Qlt_le_dec y 0) as [Hy | Hy].
  - rewrite (rnd32_neg x Hx), (rnd32_neg y Hy).
    assert (rnd_abs (- y) <= rnd_abs (- x)) by (apply rnd_abs_mono; lra). lra.
  - rewrite (rnd32_neg x Hx), (rnd32_pos y Hy).
    pose proof (rnd_abs_nonneg (- x) ltac:(lra)).
    pose proof (rnd_abs_nonneg y Hy). lra.
  - lra.
  - rewrite (rnd32_pos x Hx), (rnd32_pos y Hy). by apply rnd_abs_mono.
Qed.

Lemma rnd32_canonical x : Qred (rnd32 x) = rnd32 x.
Proof. unfold rnd32. apply Qred_eq_iff. apply Qred_correct. Qed.

Lemma rnd32_eq x y : rnd32 x == rnd32 y -> rnd32 x = rnd32 y.
Proof.
  intros E. rewrite <- (rnd32_canonical x), <- (rnd32_canonical y).
  by apply Qred_complete.
Qed.

(** Every float32 number is a multiple of the least subnormal. *)
Lemma rnd32_grid x : exists z, rnd32 x == inject_Z z * 2 ^ (-149).
Proof.
  assert (forall a, exists z, rnd_abs a == inject_Z z * 2 ^ (-149)) as H.
  { intros a. unfold rnd_abs. pose proof (ulp_exp_ge a).
    set (k := ulp_exp a) in *. set (m := rne (a / 2 ^ k)). clearbody m.
    exists (m * 2 ^ (k + 149))%Z.
    rewrite inject_Z_mult, <- pow2_Z by lia.
    pose proof (pow2_sub k (-149)) as E.
    replace (k - -149)%Z with (k + 149)%Z in E by lia.
    rewrite <- E. ring. }
  pose proof (rnd32_val x) as V. destruct (Qle_bool 0 x).
  - destruct (H x) as [z Hz]. exists z. by rewrite V.
  - destruct (H (- x)) as [z Hz]. exists (- z)%Z.
    rewrite V, Hz, inject_Z_opp. ring.
Qed.

Lemma rnd32_0 : rnd32 0 = 0.
Proof. reflexivity. Qed.
Lemma rnd32_1 : rnd32 1 = 1.
Proof. reflexivity. Qed.
Lemma rnd32_2 : rnd32 2 = 2.
Proof. reflexivity. Qed.
Lemma rnd32_m1 : rnd32 (-1) = -1.
Proof. reflexivity. Qed.
Lemma rnd32_least : rnd32 (2 ^ (-149)) == 2 ^ (-149).
Proof. reflexivity. Qed.

(** Samples of the conversion: ties go to the even neighbour, 1 / 3 is
    rounded to 24 bits, half the least subnormal goes to zero, and the
    overflow threshold lies half a step above the greatest number. *)
Example round32_samples :
  round32 16777217 = Fin 16777216 /\ round32 16777219 = Fin 16777220 /\
  round32 (1 # 3) = Fin (11184811 # 33554432) /\
  round32 (2 ^ (-150)) = Fin 0 /\
  round32 (3 * 2 ^ (-150)) = Fin (2 ^ (-148)) /\
  round32 (2 ^ 128 - 2 ^ 103 - 1) = Fin (2 ^ 128 - 2 ^ 104) /\
  round32 (2 ^ 128 - 2 ^ 103) = Inf false /\
  round32 (- 2 ^ 128) = Inf true.
Proof. by vm_compute. Qed.

(** Gradual underflow: the difference of two distinct float32 numbers
    does not round to zero. *)
Lemma rnd32_sub_pos x y : rnd32 x < rnd32 y -> 0 < rnd32 (rnd32 y - rnd32 x).
Proof.
  intros H. destruct (rnd32_grid x) as [zx Hx], (rnd32_grid y) as [zy Hy].
  pose proof (pow2_pos (-149)) as Hp.
  assert (zx < zy)%Z as Hz.
  { apply Z.lt_nge. intros Hc. rewrite Zle_Qle in Hc.
    assert (inject_Z zy * 2 ^ (-149) <= inject_Z zx * 2 ^ (-149))
      by (apply Qmult_le_compat_r; lra). lra. }
  assert (2 ^ (-149) <= rnd32 y - rnd32 x) as Hd.
  { rewrite Hx, Hy.
    assert (inject_Z (zx + 1) <= inject_Z zy) as Hc by (rewrite <- Zle_Qle; lia).
    rewrite inject_Z_plus in Hc.
    assert ((inject_Z zx + inject_Z 1) * 2 ^ (-149) <= inject_Z zy * 2 ^ (-149))
      by (apply Qmult_le_compat_r; lra).
    change (inject_Z 1) with 1 in *. lra. }
  apply rnd32_mono in Hd. rewrite rnd32_least in Hd. lra.
Qed.

(** *** Values: overflow *)

Lemma Qle_bool_false x y : Qle_bool x y = false -> y < x.
Proof.
  intros E. apply Qnot_le_lt. intros Hc. apply Qle_bool_iff in Hc. congruence.
Qed.

Lemma round32_Fin x w : round32 x = Fin w -> w = rnd32 x /\ Qabs w < 2 ^ 128.
Proof.
  unfold round32. destruct (Qle_bool (2 ^ 128) (Qabs (rnd32 x))) eqn:E; [done |].
  intros [= <-]. split; [done |]. by apply Qle_bool_false.
Qed.

Lemma round32_small x : Qabs (rnd32 x) < 2 ^ 128 -> round32 x = Fin (rnd32 x).
Proof.
  intros H. unfold round32.
  destruct (Qle_bool (2 ^ 128) (Qabs (rnd32 x))) eqn:E; [| done].
  apply Qle_bool_iff in E. lra.
Qed.

Lemma round32_comp x y : x == y -> round32 x = round32 y.
Proof. intros E. unfold round32. by rewrite (rnd32_comp x y E). Qed.

Lemma round32_within x y :
  0 <= x -> x <= y -> Qabs (rnd32 y) < 2 ^ 128 ->
  round32 x = Fin (rnd32 x) /\ 0 <= rnd32 x <= rnd32 y.
Proof.
  intros H0 Hxy Hy.
  pose proof (rnd32_mono 0 x H0) as H1. rewrite rnd32_0 in H1.
  pose proof (rnd32_mono x y Hxy) as H2.
  split; [| done]. apply round32_small.
  apply Qabs_Qlt_condition in Hy. apply Qabs_Qlt_condition. lra.
Qed.

Lemma round32_unit x :
  -2 <= x -> x <= 2 -> round32 x = Fin (rnd32 x).
Proof.
  intros H1 H2. apply round32_small.
  apply rnd32_mono in H1, H2.
  change (rnd32 (-2)) with (-2) in H1. rewrite rnd32_2 in H2.
  apply Qabs_Qlt_condition.
  assert (2 < 2 ^ 128) by reflexivity. lra.
Qed.

(** *** The scaling of one finite column

    [lo] and [hi] are float32 numbers, [lo < hi], and the width
    [hi - lo] is finite in float32. *)
Section Scale.
Variables xl xh : Q.
Let lo := rnd32 xl.
Let hi := rnd32 xh.
Let w := rnd32 (hi - lo).
Hypothesis range : lo < hi.
Hypothesis width : Qabs w < 2 ^ 128.

Lemma width_pos : 0 < w.
Proof. by apply rnd32_sub_pos. Qed.

Lemma scaled_entry a :
  lo <= a -> a <= hi ->
  fscale (f32_div (f32_sub (Fin a) (Fin lo)) (Fin w)) = Fin (scale32 lo hi a) /\
  -1 <= scale32 lo hi a /\ scale32 lo hi a <= 1.
Proof.
  intros H1 H2. pose proof width_pos as Hw.
  destruct (round32_within (a - lo) (hi - lo)) as [Ed [Hd0 Hd1]]; [lra | lra | done |].
  fold w in Hd1. cbn [f32_sub]. rewrite Ed. cbn [f32_div].
  destruct (Qeq_bool w 0) eqn:E; [apply Qeq_bool_iff in E; lra |].
  set (d := rnd32 (a - lo)) in *.
  assert (0 <= d / w) as Hq0 by (apply Qle_shift_div_l; lra).
  assert (d / w <= 1) as Hq1 by (apply Qle_shift_div_r; lra).
  pose proof (rnd32_mono _ _ Hq0) as Hq0'. rewrite rnd32_0 in Hq0'.
  pose proof (rnd32_mono _ _ Hq1) as Hq1'. rewrite rnd32_1 in Hq1'.
  rewrite (round32_unit (d / w)) by lra.
  set (q := rnd32 (d / w)) in *.
  unfold fscale. cbn [f32_mul].
  assert (0 <= 2 * q) as Ht0 by lra. assert (2 * q <= 2) as Ht1 by lra.
  pose proof (rnd32_mono _ _ Ht0) as Ht0'. rewrite rnd32_0 in Ht0'.
  pose proof (rnd32_mono _ _ Ht1) as Ht1'. rewrite rnd32_2 in Ht1'.
  rewrite (round32_unit (2 * q)) by lra.
  set (t := rnd32 (2 * q)) in *. cbn [f32_sub].
  assert (-1 <= t - 1) as Hv0 by lra. assert (t - 1 <= 1) as Hv1 by lra.
  pose proof (rnd32_mono _ _ Hv0) as Hv0'. rewrite rnd32_m1 in Hv0'.
  pose proof (rnd32_mono _ _ Hv1) as Hv1'. rewrite rnd32_1 in Hv1'.
  rewrite (round32_unit (t - 1)) by lra.
  split; [reflexivity |]. split; [exact Hv0' | exact Hv1'].
Qed.

Lemma scaled_lo : scale32 lo hi lo = -1.
Proof.
  unfold scale32. fold w.
  rewrite (rnd32_comp (lo - lo) 0) by ring. rewrite rnd32_0.
  assert (0 / w == 0) as E by (unfold Qdiv; ring).
  rewrite (rnd32_comp _ _ E), rnd32_0.
  rewrite (rnd32_comp (2 * 0) 0) by ring. rewrite rnd32_0.
  by rewrite (rnd32_comp (0 - 1) (-1)) by ring.
Qed.

Lemma scaled_hi : scale32 lo hi hi = 1.
Proof.
  pose proof width_pos as Hw. unfold scale32. fold w.
  assert (w / w == 1) as E by (field; lra).
  rewrite (rnd32_comp _ _ E), rnd32_1.
  rewrite (rnd32_comp (2 * 1) 2) by ring. rewrite rnd32_2.
  by rewrite (rnd32_comp (2 - 1) 1) by ring.
Qed.

Lemma scaled_mono a b : a <= b -> scale32 lo hi a <= scale32 lo hi b.
Proof.
  intros H. pose proof width_pos as Hw. unfold scale32. fold w.
  apply rnd32_mono.
  assert (rnd32 (a - lo) <= rnd32 (b - lo)) as Hd by (apply rnd32_mono; lra).
  assert (rnd32 (a - lo) / w <= rnd32 (b - lo) / w) as Hq.
  { apply Qmult_le_compat_r; [done |]. apply Qinv_le_0_compat. lra. }
  apply rnd32_mono in Hq.
  assert (2 * rnd32 (rnd32 (a - lo) / w) <= 2 * rnd32 (rnd32 (b - lo) / w))
    as Ht by lra.
  apply rnd32_mono in Ht. lra.
Qed.

End Scale.

End F32Facts.

(** ** The LOVE notebook *)

Module LOVEFacts.
Import PyFacts TorchFacts LOVE F32Facts.

(** *** Reductions over the rows *)

(** A fold of a selective operation [f] that goes below both its
    arguments for a preorder [R] returns one of the folded values, below
    all of them. *)
Section Selective.
Context {A : Type}.
Variable f : A -> A -> A.
Variable R : A -> A -> Prop.
Hypothesis f_cases : forall x y, f x y = x \/ f x y = y.
Hypothesis f_l : forall x y, R (f x y) x.
Hypothesis f_r : forall x y, R (f x y) y.
Hypothesis R_refl : forall x, R x x.
Hypothesis R_trans : forall x y z, R x y -> R y z -> R x z.

Lemma fold_selective l x0 :
  let m := fold_left f l x0 in
  R m x0 /\ (forall x, x ∈ l -> R m x) /\ (m = x0 \/ m ∈ l).
Proof.
  revert x0. induction l as [|a l IH]; intros x0; simpl.
  - split; [apply R_refl |]. split; [| by left]. intros x Hx. inversion Hx.
  - destruct (IH (f x0 a)) as (H1 & H2 & H3).
    split; [by eapply R_trans |].
    split.
    + intros x [-> | Hx]%elem_of_cons; [| by apply H2].
      by eapply R_trans.
    + destruct H3 as [H3 | H3]; [| right; by right].
      rewrite H3.
      destruct (f_cases x0 a) as [-> | ->]; [by left | right; by left].
Qed.

End Selective.

(** The float32 order. *)
Lemma f32_le_refl a : a <> NaN -> f32_le a a = true.
Proof.
  destruct a as [x | [] |]; intros H; try done.
  apply Qle_bool_iff. apply Qle_refl.
Qed.

Lemma f32_le_total a b :
  a <> NaN -> b <> NaN -> f32_le a b = false -> f32_le b a = true.
Proof.
  destruct a as [x | [] |], b as [y | [] |]; intros Ha Hb H; try done.
  apply Qle_bool_false in H. apply Qle_bool_iff. lra.
Qed.

Lemma f32_le_trans a b c :
  f32_le a b = true -> f32_le b c = true -> f32_le a c = true.
Proof.
  destruct a as [x | [] |], b as [y | [] |], c as [z | [] |];
    intros H1 H2; try done.
  apply Qle_bool_iff in H1, H2. apply Qle_bool_iff. lra.
Qed.

Lemma f32_le_NaN_r a : f32_le a NaN = false.
Proof. by destruct a as [x | [] |]. Qed.

Lemma f32_min_cases a b : f32_min a b = a \/ f32_min a b = b.
Proof.
  destruct a as [x | [] |], b as [y | [] |]; cbn; auto.
  destruct (Qle_bool x y); auto.
Qed.

Lemma f32_max_cases a b : f32_max a b = a \/ f32_max a b = b.
Proof.
  destruct a as [x | [] |], b as [y | [] |]; cbn; auto.
  destruct (Qle_bool x y); auto.
Qed.

Lemma min_le_refl a : min_le a a.
Proof.
  destruct a as [x | [] |]; unfold min_le; cbn; try (by left); try (by right).
  right. apply Qle_bool_iff, Qle_refl.
Qed.

Lemma min_le_trans a b c : min_le a b -> min_le b c -> min_le a c.
Proof.
  intros [-> | H1] [-> | H2]; [by left | by left | | right].
  - by rewrite f32_le_NaN_r in H1.
  - by eapply f32_le_trans.
Qed.

Lemma min_le_l a b : min_le (f32_min a b) a.
Proof.
  destruct a as [x | [] |], b as [y | [] |]; unfold min_le; cbn; try (by left); try (by right);
    try (right; apply Qle_bool_iff, Qle_refl).
  destruct (Qle_bool x y) eqn:E; right; cbn; apply Qle_bool_iff.
  - apply Qle_refl.
  - apply Qle_bool_false in E. lra.
Qed.

Lemma min_le_r a b : min_le (f32_min a b) b.
Proof.
  destruct a as [x | [] |], b as [y | [] |]; unfold min_le; cbn; try (by left); try (by right);
    try (right; apply Qle_bool_iff, Qle_refl).
  destruct (Qle_bool x y) eqn:E; right; cbn; [done |].
  apply Qle_bool_iff, Qle_refl.
Qed.

Lemma max_ge_refl a : max_ge a a.
Proof. apply min_le_refl. Qed.

Lemma max_ge_trans a b c : max_ge a b -> max_ge b c -> max_ge a c.
Proof.
  intros [-> | H1] [-> | H2]; [by left | by left | | right].
  - by destruct a as [x | [] |].
  - by eapply f32_le_trans.
Qed.

Lemma max_ge_l a b : max_ge (f32_max a b) a.
Proof.
  destruct a as [x | [] |], b as [y | [] |]; unfold max_ge; cbn; try (by left); try (by right);
    try (right; apply Qle_bool_iff, Qle_refl).
  destruct (Qle_bool x y) eqn:E; right; cbn; [done |].
  apply Qle_bool_iff, Qle_refl.
Qed.

Lemma max_ge_r a b : max_ge (f32_max a b) b.
Proof.
  destruct a as [x | [] |], b as [y | [] |]; unfold max_ge; cbn; try (by left); try (by right);
    try (right; apply Qle_bool_iff, Qle_refl).
  destruct (Qle_bool x y) eqn:E; right; cbn; apply Qle_bool_iff.
  - apply Qle_refl.
  - apply Qle_bool_false in E. lra.
Qed.

Lemma min_le_Fin x y : min_le (Fin x) (Fin y) <-> (x <= y)%Q.
Proof.
  unfold min_le. cbn. rewrite Qle_bool_iff. split; [by intros [? | ?] | auto].
Qed.

Lemma max_ge_Fin x y : max_ge (Fin x) (Fin y) <-> (y <= x)%Q.
Proof.
  unfold max_ge. cbn. rewrite Qle_bool_iff. split; [by intros [? | ?] | auto].
Qed.

(** *** Matrices as lists of rows *)

Lemma column_cons {A} (row : list A) X j x :
  row !! j = Some x -> column (row :: X) j = x :: column X j.
Proof. intros H. unfold column. simpl. by rewrite H. Qed.

Lemma column_lookup {A} (X : list (list A)) c j i :
  Forall (fun row => length row = c) X -> (j < c)%nat ->
  column X j !! i = entry X i j.
Proof.
  intros HX Hj. revert i. induction HX as [|row X Hrow HX IH]; intros i.
  - done.
  - destruct (lookup_lt_is_Some_2 row j) as [x Hx]; [lia |].
    rewrite (column_cons _ _ _ _ Hx).
    destruct i as [|i]; simpl.
    + unfold entry. simpl. by rewrite Hx.
    + by rewrite IH.
Qed.

Lemma elem_of_column {A} (X : list (list A)) c j x :
  Forall (fun row => length row = c) X -> (j < c)%nat ->
  x ∈ column X j <-> exists i, entry X i j = Some x.
Proof.
  intros HX Hj. rewrite list_elem_of_lookup.
  split; intros [i Hi]; exists i.
  - by rewrite <- (column_lookup X c j i).
  - by rewrite (column_lookup X c j i).
Qed.

Lemma entry_is_Some {A} (X : list (list A)) r c i j :
  is_tensor2 r c X -> (i < r)%nat -> (j < c)%nat ->
  exists a, entry X i j = Some a.
Proof.
  intros [Hr HX] Hi Hj. unfold entry.
  destruct (lookup_lt_is_Some_2 X i) as [row Hrow]; [lia |].
  rewrite Hrow. simpl. apply lookup_lt_is_Some_2.
  eapply Forall_lookup_1 in HX; [| exact Hrow]. simpl in HX. lia.
Qed.

Lemma entry_Some_lt {A} (X : list (list A)) r c i j a :
  is_tensor2 r c X -> entry X i j = Some a -> (i < r)%nat.
Proof.
  intros [Hr _] H. unfold entry in H.
  destruct (X !! i) as [row|] eqn:Hrow; [| done].
  apply lookup_lt_Some in Hrow. lia.
Qed.

Lemma entry_map {A B} (g : list A -> list B) (X : list (list A)) i j :
  entry (map g X) i j = X !! i ≫= fun row => g row !! j.
Proof. unfold entry. rewrite list_lookup_fmap. by destruct (X !! i). Qed.

Lemma entry_map_map {A B} (g : A -> B) (X : list (list A)) i j :
  entry (map (map g) X) i j = g <$> entry X i j.
Proof.
  rewrite entry_map. unfold entry. destruct (X !! i) as [row|]; [| done].
  simpl. by rewrite list_lookup_fmap.
Qed.

Lemma entry_zip_rows {A B C} (f : A -> B -> C) (X : list (list A))
    (v : list B) i j :
  entry (map (fun row => zip_with f row v) X) i j =
  entry X i j ≫= fun a => v !! j ≫= fun b => Some (f a b).
Proof.
  rewrite entry_map. unfold entry. destruct (X !! i) as [row|]; [| done].
  simpl. by rewrite lookup_zip_with.
Qed.

Lemma is_tensor2_zip_rows {A B C} (f : A -> B -> C) (X : list (list A))
    (v : list B) r c :
  is_tensor2 r c X -> length v = c ->
  is_tensor2 r c (map (fun row => zip_with f row v) X).
Proof.
  intros [Hr HX] Hv. split; [by rewrite length_map |].
  apply Forall_fmap. eapply Forall_impl; [exact HX |].
  intros row Hrow. simpl in *. rewrite length_zip_with. lia.
Qed.

Lemma is_tensor2_map_map {A B} (g : A -> B) (X : list (list A)) r c :
  is_tensor2 r c X -> is_tensor2 r c (map (map g) X).
Proof.
  intros [Hr HX]. split; [by rewrite length_map |].
  apply Forall_fmap. eapply Forall_impl; [exact HX |].
  intros row Hrow. simpl in *. by rewrite length_map.
Qed.

Lemma reduce_rows_lookup {A} (f : A -> A -> A) rs : forall r0 c j,
  Forall (fun row => length row = c) rs -> length r0 = c -> (j < c)%nat ->
  exists x0, r0 !! j = Some x0 /\
    fold_left (zip_with f) rs r0 !! j = Some (fold_left f (column rs j) x0).
Proof.
  induction rs as [|row rs IH]; intros r0 c j Hrs Hr0 Hj.
  - destruct (lookup_lt_is_Some_2 r0 j) as [x0 Hx0]; [lia |].
    by exists x0.
  - apply Forall_cons in Hrs as [Hrow Hrs].
    destruct (lookup_lt_is_Some_2 r0 j) as [x0 Hx0]; [lia |].
    destruct (lookup_lt_is_Some_2 row j) as [a Ha]; [lia |].
    exists x0. split; [done |].
    rewrite (column_cons _ _ _ _ Ha). cbn [fold_left].
    destruct (IH (zip_with f r0 row) c j Hrs) as (x1 & Hx1 & Hfold); [| done |].
    { rewrite length_zip_with. lia. }
    rewrite lookup_zip_with, Hx0 in Hx1. simpl in Hx1.
    rewrite Ha in Hx1. simpl in Hx1. by injection Hx1 as <-.
Qed.

Lemma reduce_rows_length {A} (f : A -> A -> A) rs : forall r0 c,
  Forall (fun row => length row = c) rs -> length r0 = c ->
  length (fold_left (zip_with f) rs r0) = c.
Proof.
  induction rs as [|row rs IH]; intros r0 c Hrs Hr0; [done |].
  apply Forall_cons in Hrs as [Hrow Hrs]. cbn [fold_left].
  apply IH; [done |]. rewrite length_zip_with. lia.
Qed.

Lemma reduce0_column {A} (f : A -> A -> A) (X : list (list A)) r c :
  is_tensor2 r c X -> (0 < r)%nat ->
  exists v, reduce0 f X = Ok v /\ length v = c /\
    forall j, (j < c)%nat ->
      exists x0 l, column X j = x0 :: l /\ v !! j = Some (fold_left f l x0).
Proof.
  intros [Hlen HX] Hr. destruct X as [|r0 rs]; [simpl in Hlen; lia |].
  apply Forall_cons in HX as [Hr0 Hrs].
  exists (fold_left (zip_with f) rs r0). split; [done |].
  split; [by apply reduce_rows_length |].
  intros j Hj.
  destruct (reduce_rows_lookup f rs r0 c j Hrs Hr0 Hj) as (x0 & Hx0 & Hfold).
  exists x0, (column rs j). split; [by apply column_cons | done].
Qed.

(** A reduction over the rows holds, for every column, an entry of the
    column that is below all its entries. *)
Lemma reduce0_spec {A} (f : A -> A -> A) (R : A -> A -> Prop)
    (X : list (list A)) r c :
  (forall x y, f x y = x \/ f x y = y) ->
  (forall x y, R (f x y) x) -> (forall x y, R (f x y) y) ->
  (forall x, R x x) -> (forall x y z, R x y -> R y z -> R x z) ->
  is_tensor2 r c X -> (0 < r)%nat ->
  exists v, reduce0 f X = Ok v /\ length v = c /\
    forall j, (j < c)%nat -> exists m, v !! j = Some m /\
      (forall i a, entry X i j = Some a -> R m a) /\
      (exists i, entry X i j = Some m).
Proof.
  intros Hcases Hl Hr Hrefl Htrans HX Hpos.
  destruct (reduce0_column f X r c HX Hpos) as (v & Hv & Hlen & Hcol).
  exists v. split; [done |]. split; [done |]. intros j Hj.
  destruct (Hcol j Hj) as (x0 & l & Hc & Hvj).
  exists (fold_left f l x0). split; [done |].
  destruct (fold_selective f R Hcases Hl Hr Hrefl Htrans l x0) as (H1 & H2 & H3).
  destruct HX as [_ HX].
  split.
  - intros i a Ha.
    assert (a ∈ column X j) as Hin by (apply (elem_of_column X c); eauto).
    rewrite Hc in Hin. apply elem_of_cons in Hin as [-> | Hin]; auto.
  - apply (elem_of_column X c j); [done.. |]. rewrite Hc.
    destruct H3 as [-> | H3]; [by left | by right].
Qed.

(** [X.min(0)[0]] and [X.max(0)[0]]. *)
Lemma min0_spec (X : list (list fval)) r c :
  is_tensor2 r c X -> (0 < r)%nat ->
  exists mn, min0 X = Ok mn /\ length mn = c /\
    forall j, (j < c)%nat -> exists m, mn !! j = Some m /\
      (forall i a, entry X i j = Some a -> min_le m a) /\
      (exists i, entry X i j = Some m).
Proof.
  apply (reduce0_spec f32_min min_le).
  - apply f32_min_cases.
  - apply min_le_l.
  - apply min_le_r.
  - apply min_le_refl.
  - apply min_le_trans.
Qed.

Lemma max0_spec (X : list (list fval)) r c :
  is_tensor2 r c X -> (0 < r)%nat ->
  exists mx, max0 X = Ok mx /\ length mx = c /\
    forall j, (j < c)%nat -> exists m, mx !! j = Some m /\
      (forall i a, entry X i j = Some a -> max_ge m a) /\
      (exists i, entry X i j = Some m).
Proof.
  apply (reduce0_spec f32_max max_ge).
  - apply f32_max_cases.
  - apply max_ge_l.
  - apply max_ge_r.
  - apply max_ge_refl.
  - apply max_ge_trans.
Qed.

(** *** Cell 4: what [normalize_cell] computes *)

Lemma features_spec {A} (data : list (list A)) r c :
  is_tensor2 r (S c) data ->
  is_tensor2 r c (features data) /\
  forall i j, (j < c)%nat -> entry (features data) i j = entry data i j.
Proof.
  intros [Hr HX]. split.
  - split; [unfold features; by rewrite length_map |].
    apply Forall_fmap. eapply Forall_impl; [exact HX |].
    intros row Hrow. simpl in *.
    rewrite (slice_to_last row c Hrow), length_take. lia.
  - intros i j Hj. unfold features. rewrite entry_map. unfold entry.
    destruct (data !! i) as [row|] eqn:Hi; [| done]. simpl.
    assert (length row = S c) as Hrow by (eapply Forall_lookup_1 in HX; eauto).
    rewrite (slice_to_last row c Hrow). by apply lookup_take_lt.
Qed.

(** [y] is the last column of [data], as it was read. *)
Lemma target_spec {A} (data : list (list A)) r c :
  is_tensor2 r (S c) data ->
  exists y, target data = Ok y /\ length y = r /\
            forall i, y !! i = entry data i c.
Proof.
  intros [Hr HX]. revert r Hr.
  induction HX as [|row data Hrow HX IH]; intros r Hr.
  - exists []. simpl in *. split; [done |]. split; [done |]. by intros i.
  - destruct (IH (length data) eq_refl) as (y & Hy & Hlen & Hent).
    destruct (lookup_lt_is_Some_2 row c) as [x Hx]; [lia |].
    exists (x :: y). cbn [target].
    rewrite (index_last row c x Hrow Hx), Hy.
    split; [done |]. split; [simpl in *; lia |].
    intros [|i]; [by unfold entry; simpl; rewrite Hx | apply Hent].
Qed.

(** On a matrix with at least one row and one column the cell returns.
    For every feature column, entry [j] of [X.min(0)[0]] is an entry [lo]
    of the column that [min] puts below all others, entry [j] of the
    divisor [X.max(0)[0]] is a difference [a - lo] that [max] puts above
    all others, and entry [(i, j)] of [X] is [2 * ((a - lo) / w) - 1] for
    the entry [a] of the tensor and that divisor [w]. *)
Lemma normalize_cell_spec data r c :
  is_tensor2 r (S c) data -> (0 < r)%nat ->
  exists mn mx X y,
    min0 (features (to_tensor data)) = Ok mn /\
    max0 (sub_rows (features (to_tensor data)) mn) = Ok mx /\
    normalize_cell data = Ok (X, y) /\ is_tensor2 r c X /\
    length y = r /\ (forall i, y !! i = entry (to_tensor data) i c) /\
    forall j, (j < c)%nat -> exists lo w,
      mn !! j = Some lo /\ mx !! j = Some w /\
      (forall i a, entry (to_tensor data) i j = Some a -> min_le lo a) /\
      (exists i, entry (to_tensor data) i j = Some lo) /\
      (forall i a, entry (to_tensor data) i j = Some a ->
                   max_ge w (f32_sub a lo)) /\
      (exists i a, entry (to_tensor data) i j = Some a /\ w = f32_sub a lo) /\
      forall i a, entry (to_tensor data) i j = Some a ->
        entry X i j = Some (fscale (f32_div (f32_sub a lo) w)).
Proof.
  intros Hdata0 Hr.
  pose proof (is_tensor2_map_map round32 data r (S c) Hdata0) as Hdata.
  fold (to_tensor data) in Hdata. set (T := to_tensor data) in *.
  destruct (features_spec T r c Hdata) as [HX0 Hent0].
  destruct (min0_spec _ r c HX0 Hr) as (mn & Hmn & Hmnlen & Hmnspec).
  pose proof (is_tensor2_zip_rows f32_sub _ mn r c HX0 Hmnlen) as HX1.
  destruct (max0_spec _ r c HX1 Hr) as (mx & Hmx & Hmxlen & Hmxspec).
  pose proof (is_tensor2_zip_rows f32_div _ mx r c HX1 Hmxlen) as HX2.
  destruct (target_spec T r c Hdata) as (y & Hy & Hylen & Hyent).
  exists mn, mx. eexists _, y. split; [done |]. split; [done |].
  unfold normalize_cell. fold T.
  rewrite Hmn. fold (sub_rows (features T) mn) in *. rewrite Hmx, Hy.
  split; [reflexivity |]. split; [by apply is_tensor2_map_map |].
  split; [done |]. split; [done |].
  intros j Hj.
  destruct (Hmnspec j Hj) as (lo & Hlo & Hlole & i_lo & Hilo).
  destruct (Hmxspec j Hj) as (w & Hw & Hwge & i_hi & Hihi).
  assert (forall i a, entry T i j = Some a ->
            entry (sub_rows (features T) mn) i j = Some (f32_sub a lo)) as Hsub.
  { intros i a Ha. unfold sub_rows. rewrite entry_zip_rows, Hent0, Ha by done.
    simpl. by rewrite Hlo. }
  exists lo, w. split; [done |]. split; [done |].
  split; [intros i a Ha; apply (Hlole i); by rewrite Hent0 |].
  split; [exists i_lo; by rewrite <- Hent0 |].
  split; [intros i a Ha; apply (Hwge i); by apply Hsub |].
  split.
  { unfold sub_rows in Hihi. rewrite entry_zip_rows, Hent0 in Hihi by done.
    destruct (entry T i_hi j) as [a|] eqn:Ha; [| done].
    simpl in Hihi. rewrite Hlo in Hihi. simpl in Hihi. injection Hihi as <-.
    by exists i_hi, a. }
  intros i a Ha.
  rewrite entry_map_map. unfold div_rows.
  rewrite entry_zip_rows. fold (sub_rows (features T) mn).
  rewrite (Hsub i a Ha). simpl. by rewrite Hw.
Qed.

(** Entries of the tensor are the converted entries of the data. *)
Lemma tensor_entry data i j :
  entry (to_tensor data) i j = round32 <$> entry data i j.
Proof. apply entry_map_map. Qed.

Lemma tensor_entry_Fin data i j a :
  entry (to_tensor data) i j = Some (Fin a) -> exists x, a = rnd32 x.
Proof.
  rewrite tensor_entry. destruct (entry data i j) as [x|]; [| done].
  intros [= H]. apply round32_Fin in H as [-> _]. by exists x.
Qed.

(** A finite column of positive, finite width: the minimum is [lo] and
    the divisor is the float32 width [hi - lo]. *)
Lemma finite_column data j lo hi lo0 w0 :
  f32_range (to_tensor data) j lo hi -> (lo < hi)%Q ->
  (exists w, f32_sub (Fin hi) (Fin lo) = Fin w) ->
  (forall i a, entry (to_tensor data) i j = Some a -> min_le lo0 a) ->
  (exists i, entry (to_tensor data) i j = Some lo0) ->
  (forall i a, entry (to_tensor data) i j = Some a ->
               max_ge w0 (f32_sub a lo0)) ->
  (exists i a, entry (to_tensor data) i j = Some a /\ w0 = f32_sub a lo0) ->
  lo0 = Fin lo /\ w0 = Fin (rnd32 (hi - lo)) /\
  (Qabs (rnd32 (hi - lo)) < 2 ^ 128)%Q /\
  exists xl xh, lo = rnd32 xl /\ hi = rnd32 xh.
Proof.
  intros ([il Hl] & [ih Hh] & Hb) Hlt [w Hw] Hmin [i0 Hi0] Hmax
    (i1 & a1 & Hi1 & Hw0).
  destruct (tensor_entry_Fin _ _ _ _ Hl) as [xl Hxl].
  destruct (tensor_entry_Fin _ _ _ _ Hh) as [xh Hxh].
  cbn [f32_sub] in Hw. apply round32_Fin in Hw as [-> Hwb].
  destruct (Hb i0 lo0 Hi0) as (l' & -> & Hl1 & Hl2).
  pose proof (Hmin il _ Hl) as Hm. apply min_le_Fin in Hm.
  destruct (tensor_entry_Fin _ _ _ _ Hi0) as [xl' Hxl'].
  assert (l' = lo) as ->.
  { rewrite Hxl', Hxl. apply rnd32_eq. rewrite <- Hxl', <- Hxl. lra. }
  destruct (Hb i1 a1 Hi1) as (a' & -> & Ha1 & Ha2).
  cbn [f32_sub] in Hw0.
  destruct (round32_within (a' - lo) (hi - lo)) as [Ed [Hd0 Hd1]];
    [lra | lra | done |].
  rewrite Ed in Hw0. subst w0.
  pose proof (Hmax ih _ Hh) as HM. cbn [f32_sub] in HM.
  rewrite (round32_small (hi - lo)) in HM by done.
  apply max_ge_Fin in HM.
  split; [done |]. split; [f_equal; apply rnd32_eq; lra |].
  split; [done |]. by exists xl, xh.
Qed.

(** The cell on a finite column of positive, finite width: every entry
    is scaled by [scale32] with the observed [lo] and [hi]. *)
Lemma column_scaled data r c j lo hi :
  is_tensor2 r (S c) data -> (0 < r)%nat -> (j < c)%nat ->
  f32_range (to_tensor data) j lo hi -> (lo < hi)%Q ->
  (exists w, f32_sub (Fin hi) (Fin lo) = Fin w) ->
  exists X y xl xh,
    normalize_cell data = Ok (X, y) /\ is_tensor2 r c X /\
    length y = r /\ (forall i, y !! i = entry (to_tensor data) i c) /\
    lo = rnd32 xl /\ hi = rnd32 xh /\
    (Qabs (rnd32 (hi - lo)) < 2 ^ 128)%Q /\
    forall i a, entry (to_tensor data) i j = Some (Fin a) ->
      entry X i j = Some (Fin (scale32 lo hi a)).
Proof.
  intros Hdata Hr Hj Hrange Hlt Hw.
  destruct (normalize_cell_spec data r c Hdata Hr)
    as (mn & mx & X & y & _ & _ & Hcell & HX & Hlen & Hy & Hcols).
  destruct (Hcols j Hj) as (lo0 & w0 & _ & _ & H1 & H2 & H3 & H4 & Hent).
  destruct (finite_column data j lo hi lo0 w0 Hrange Hlt Hw H1 H2 H3 H4)
    as (-> & -> & Hwb & xl & xh & Hxl & Hxh).
  exists X, y, xl, xh. repeat (split; [done |]).
  intros i a Ha. rewrite (Hent i _ Ha). f_equal.
  destruct Hrange as (_ & _ & Hb).
  destruct (Hb i _ Ha) as (a' & [= <-] & Ha1 & Ha2).
  subst lo hi. by apply scaled_entry.
Qed.

(** The cell on a constant column: the divisor is zero, or NaN when the
    one value of the column is an infinity, and every entry is NaN. *)
Lemma constant_column T j lo0 w0 :
  f32_constant T j ->
  (exists i, entry T i j = Some lo0) ->
  (exists i a, entry T i j = Some a /\ w0 = f32_sub a lo0) ->
  (w0 = Fin 0 \/ w0 = NaN) /\ (forall a, lo0 = Fin a -> w0 = Fin 0) /\
  forall i a, entry T i j = Some a ->
              fscale (f32_div (f32_sub a lo0) w0) = NaN.
Proof.
  intros Hconst [i0 Hi0] (i1 & a1 & Hi1 & ->).
  rewrite (Hconst i1 i0 a1 lo0 Hi1 Hi0).
  assert (f32_sub lo0 lo0 = Fin 0 \/ f32_sub lo0 lo0 = NaN) as Hsub.
  { destruct lo0 as [a | [] |]; auto. left. cbn [f32_sub].
    by rewrite (round32_comp (a - a) 0) by ring. }
  split; [done |]. split.
  - intros a ->. cbn [f32_sub]. by rewrite (round32_comp (a - a) 0) by ring.
  - intros i a Ha. rewrite (Hconst i i0 a lo0 Ha Hi0).
    by destruct Hsub as [-> | ->].
Qed.

Lemma nan_breaks_unit_range X j i :
  entry X i j = Some NaN -> ~ unit_range_column X j.
Proof.
  intros Hnan (Hall & _ & _). by destruct (Hall i NaN Hnan) as (q & Hq & _).
Qed.

(** C2, as amended.  The cell computes in float32.  For a feature column
    [j] whose float32 entries are finite with least entry [lo] and
    greatest entry [hi], [lo < hi], and whose width [hi - lo] is finite in
    float32, the cell returns [X] and [y] where column [j] of [X] has all
    its entries in [[-1, 1]], minimum exactly -1 and maximum exactly 1:
    the entry for [a] is [2 * ((a - lo) / (hi - lo)) - 1] with the
    observed [lo] and [hi], each operation rounded.  [y] is the last
    column of the tensor, unscaled.  Nothing is asked of the other
    columns. *)
Theorem normalize_unit_range data r c j lo hi :
  is_tensor2 r (S c) data -> (0 < r)%nat -> (j < c)%nat ->
  f32_range (to_tensor data) j lo hi -> (lo < hi)%Q ->
  (exists w, f32_sub (Fin hi) (Fin lo) = Fin w) ->
  exists X y,
    normalize_cell data = Ok (X, y) /\ is_tensor2 r c X /\
    unit_range_column X j /\
    (forall i a, entry (to_tensor data) i j = Some (Fin a) ->
                 entry X i j = Some (Fin (scale32 lo hi a))) /\
    length y = r /\ (forall i, y !! i = entry (to_tensor data) i c).
Proof.
  intros Hdata Hr Hj Hrange Hlt Hw.
  destruct (column_scaled data r c j lo hi Hdata Hr Hj Hrange Hlt Hw)
    as (X & y & xl & xh & Hcell & HX & Hlen & Hy & Hxl & Hxh & Hwb & Hent).
  exists X, y. split; [done |]. split; [done |].
  split; [| by repeat split].
  pose proof (is_tensor2_map_map round32 data r (S c) Hdata) as HT.
  fold (to_tensor data) in HT.
  destruct Hrange as ([il Hl] & [ih Hh] & Hb). subst lo hi.
  split; [| split].
  - intros i v Hv.
    destruct (entry_is_Some (to_tensor data) r (S c) i j HT) as [u Hu];
      [exact (entry_Some_lt X r c i j v HX Hv) | lia |].
    destruct (Hb i u Hu) as (a & -> & Ha1 & Ha2).
    rewrite (Hent i a Hu) in Hv. injection Hv as <-.
    eexists. split; [done |]. by apply scaled_entry.
  - exists il. eexists. split; [by apply Hent |]. by rewrite scaled_lo.
  - exists ih. eexists. split; [by apply Hent |]. by rewrite scaled_hi.
Qed.

(** [normalize_unit_range] on the first column of the sample, whose
    float32 entries are 1, 3 and 2. *)
Lemma normalize_unit_range_witness :
  f32_range (to_tensor Stub.sample) 0 1 3 /\
  exists X y,
    normalize_cell Stub.sample = Ok (X, y) /\ is_tensor2 3 2 X /\
    unit_range_column X 0 /\
    (forall i a, entry (to_tensor Stub.sample) i 0 = Some (Fin a) ->
                 entry X i 0 = Some (Fin (scale32 1 3 a))) /\
    length y = 3%nat /\
    (forall i, y !! i = entry (to_tensor Stub.sample) i 2).
Proof.
  assert (f32_range (to_tensor Stub.sample) 0 1 3) as Hrange.
  { split; [by exists 0%nat |]. split; [by exists 1%nat |].
    intros [|[|[|i]]] v [= <-]; eexists; by repeat split. }
  split; [exact Hrange |].
  apply (normalize_unit_range Stub.sample 3 2 0 1 3).
  - split; [reflexivity | repeat constructor].
  - lia.
  - lia.
  - exact Hrange.
  - reflexivity.
  - by eexists.
Defined.

(** C2, as stated, fails in four ways.  A constant feature column comes
    out as NaN (0 / 0).  So does a column of two numbers that float32
    does not tell apart, as 2^24 and 2^24 + 1.  A column whose width
    overflows float32, as from -2^127 to 2^127, comes out with a NaN
    (inf / inf), and so does a column with an entry that float32 holds
    as an infinity, as 2^128.  None of these columns has minimum -1 and
    maximum 1. *)
Lemma constant_column_breaks_unit_range :
  (normalize_cell [[1; 5]; [1; 7]]%Q = Ok ([[NaN]; [NaN]], [Fin 5; Fin 7]) /\
   normalize_cell [[16777216; 5]; [16777217; 7]]%Q
   = Ok ([[NaN]; [NaN]], [Fin 5; Fin 7]) /\
   ~ unit_range_column [[NaN]; [NaN]] 0) /\
  (normalize_cell [[- 2 ^ 127; 0]; [2 ^ 127; 0]; [0; 0]]%Q
   = Ok ([[Fin (-1)]; [NaN]; [Fin (-1)]], [Fin 0; Fin 0; Fin 0]) /\
   ~ unit_range_column [[Fin (-1)]; [NaN]; [Fin (-1)]] 0) /\
  (normalize_cell [[2 ^ 128; 0]; [0; 0]]%Q
   = Ok ([[NaN]; [Fin (-1)]], [Fin 0; Fin 0]) /\
   ~ unit_range_column [[NaN]; [Fin (-1)]] 0).
Proof.
  split; [split; [| split] | split; split].
  - by vm_compute.
  - by vm_compute.
  - by apply (nan_breaks_unit_range _ 0 0).
  - by vm_compute.
  - by apply (nan_breaks_unit_range _ 0 1).
  - by vm_compute.
  - by apply (nan_breaks_unit_range _ 0 0).
Qed.

(** Rounding shows in the result: of the column 0, 1, 3 the middle entry
    comes out as [2 * fl(1 / 3) - 1 = -0.33333331...], not as [-1 / 3]. *)
Example normalize_rounds :
  normalize_cell [[0; 5]; [1; 7]; [3; 9]]%Q
  = Ok ([[Fin (-1)]; [Fin (-5592405 # 16777216)]; [Fin 1]],
        [Fin 5; Fin 7; Fin 9]).
Proof. by vm_compute. Qed.



(** *** Cell 5: the split index and the two slices *)

Lemma rne_shift_exact p s : s <= 0 -> rne_shift p s = p.
Proof. intros Hs. unfold rne_shift. destruct (Z.leb_spec s 0); [done | lia]. Qed.

Lemma rne_shift_bounds p s :
  0 < s -> p / 2 ^ s <= rne_shift p s <= p / 2 ^ s + 1.
Proof.
  intros Hs. unfold rne_shift.
  destruct (Z.leb_spec s 0); [lia |].
  rewrite Z.shiftr_div_pow2 by lia.
  repeat case_match; lia.
Qed.

(** Integers below [2^53] convert to binary64 without rounding. *)
Lemma round53_small n : 0 <= n < 2 ^ 53 -> round53 n 0 = (n, 0).
Proof.
  intros [H0 H1]. unfold round53.
  assert (Z.log2 n < 53) as Hlog.
  { destruct (decide (n = 0)) as [-> | Hn]; [done |].
    apply Z.log2_lt_pow2; lia. }
  replace (Z.max 0 (Z.log2 n + 1 - 53)) with 0 by lia.
  by rewrite rne_shift_exact.
Qed.

(** The binary64 computation [int(math.floor(0.4*n))] gives the exact
    [floor(2n/5)] for every length below [2^50].  (It does not for every
    [n]: [train_n (2^52 + 1)] is one more than [floor(2n/5)].)  The
    literal 0.4 is [(2^54 + 1) / (5 * 2^53)], a little above 2/5; the
    product is rounded to 53 bits, within [2^s] of the exact product,
    which is too little to reach the next integer. *)
Lemma train_n_exact n : 0 <= n < 2 ^ 50 -> train_n n = 2 * n / 5.
Proof.
  intros [H0 H1].
  unfold train_n, f64_of_int, f64_mul, f64_floor, lit_0_4.
  rewrite round53_small by lia. cbn [fst snd].
  unfold round53. cbn [fst snd].
  set (p := 3602879701896397 * n).
  set (s := Z.max 0 (Z.log2 p + 1 - 53)).
  set (k := 2 * n / 5).
  assert (5 * k <= 2 * n < 5 * k + 5) as Hk.
  { unfold k. pose proof (Z.mul_div_le (2 * n) 5 ltac:(lia)).
    pose proof (Z.mul_succ_div_gt (2 * n) 5 ltac:(lia)). lia. }
  assert (0 <= s) as Hs0 by lia.
  assert (0 < 2 ^ s) as Hpow by (apply Z.pow_pos_nonneg; lia).
  assert (s = 0 \/ (0 < s /\ 2 ^ s * 2 ^ 52 <= p)) as Hs.
  { destruct (decide (s = 0)) as [|Hne]; [by left | right].
    assert (0 < p) as Hp.
    { destruct (decide (p = 0)) as [Hz|]; [| lia].
      exfalso. apply Hne. unfold s. by rewrite Hz. }
    split; [lia |].
    replace s with (Z.log2 p - 52) by lia.
    rewrite <- Z.pow_add_r by lia.
    replace (Z.log2 p - 52 + 52) with (Z.log2 p) by lia.
    by apply Z.log2_spec. }
  assert (s < 53) as Hs53.
  { destruct Hs as [-> | [Hs Hle]]; [lia |].
    destruct (Z.lt_ge_cases s 53); [done | exfalso].
    assert (2 ^ 53 <= 2 ^ s) by (apply Z.pow_le_mono_r; lia).
    assert (p < 2 ^ 52 * 2 ^ 50) by (unfold p; lia).
    nia. }
  replace (-53 + 0 + s) with (- (53 - s)) by lia.
  rewrite <- Z.shiftr_opp_r, Z.opp_involutive.
  rewrite Z.shiftr_div_pow2 by lia.
  set (T := 2 ^ (53 - s)).
  assert (0 < T) as HT by (apply Z.pow_pos_nonneg; lia).
  assert (T * 2 ^ s = 2 ^ 53) as HTs.
  { unfold T. rewrite <- Z.pow_add_r by lia. f_equal. lia. }
  symmetry. apply Z.div_unique_pos with (r := rne_shift p s - T * k); [| lia].
  assert (5 * p = (2 ^ 54 + 1) * n) as Hp5 by (unfold p; lia).
  destruct Hs as [Hs | [Hs Hle]].
  - rewrite rne_shift_exact by lia.
    assert (T = 2 ^ 53) as -> by (rewrite <- HTs, Hs; lia). lia.
  - pose proof (rne_shift_bounds p s Hs) as [Hlo Hhi].
    assert (T * k <= p / 2 ^ s).
    { apply Z.div_le_lower_bound; [lia |]. nia. }
    assert (p / 2 ^ s + 1 < T * (k + 1)); [| lia].
    assert (p / 2 ^ s < T * (k + 1) - 1); [| lia].
    apply Z.div_lt_upper_bound; [lia |].
    assert (2 ^ s < n) by (unfold p in Hle; nia).
    nia.
Qed.

(** Beyond that bound the binary64 result can differ from the exact one. *)
Lemma train_n_inexact : train_n (2 ^ 52 + 1) = 2 * (2 ^ 52 + 1) / 5 + 1.
Proof. reflexivity. Qed.

(** Whatever the index, the two slices of the cell split the rows in
    two. *)
Lemma split_cell_cover {A B} (X : list A) (y : list B) :
  let '(train_x, train_y, test_x, test_y) := split_cell X y in
  train_x ++ test_x = X /\ train_y ++ test_y = y.
Proof. unfold split_cell. split; apply slice_to_from. Qed.

(** C3.  For a matrix [X] of [N] rows and its [N] targets [y] (with [N]
    below [2^50], where the binary64 product [0.4*N] has the exact
    floor), the cell puts the first [floor(0.4*N)] rows in the training
    partition and all the others, in order, in the test partition: the
    sizes add up to [N], the partitions together are [X], row [p] of [X]
    is row [p] of [train_x] when [p < floor(0.4*N)] and row
    [p - floor(0.4*N)] of [test_x] otherwise, and when the rows are
    pairwise distinct no row is in both partitions. *)
Theorem split_partitions_rows {A B} (X : list A) (y : list B) :
  Z.of_nat (length X) < 2 ^ 50 -> length y = length X ->
  let k := Z.to_nat (2 * Z.of_nat (length X) / 5) in
  let '(train_x, train_y, test_x, test_y) := split_cell X y in
  train_x = take k X /\ test_x = drop k X /\
  train_y = take k y /\ test_y = drop k y /\
  length train_x = k /\
  (length train_x + length test_x = length X)%nat /\
  train_x ++ test_x = X /\
  (forall p, (p < k)%nat -> train_x !! p = X !! p) /\
  (forall p, (k <= p)%nat -> test_x !! (p - k)%nat = X !! p) /\
  (NoDup X -> forall row, row ∈ train_x -> row ∉ test_x).
Proof.
  intros HN Hy k. unfold split_cell, slice_to, slice_from.
  rewrite Hy, train_n_exact by lia.
  assert (0 <= 2 * Z.of_nat (length X) / 5 <= Z.of_nat (length X)) as Hk.
  { split; [apply Z.div_pos; lia |].
    apply Z.div_le_upper_bound; lia. }
  rewrite slice_bound_nonneg by done. fold k.
  assert (k <= length X)%nat as Hle by lia.
  split; [done |]. split; [done |]. split; [done |]. split; [done |].
  split; [rewrite length_take; lia |].
  split; [rewrite length_take, length_drop; lia |].
  split; [apply take_drop |].
  split; [intros p Hp; by apply lookup_take_lt |].
  split.
  - intros p Hp. rewrite lookup_drop. f_equal. lia.
  - intros Hnd row Hin.
    rewrite <- (take_drop k X) in Hnd.
    apply NoDup_app in Hnd as (_ & Hdisj & _). by apply Hdisj.
Qed.

(** [split_partitions_rows] on five rows: two for training, three for
    testing. *)
Lemma split_partitions_rows_witness :
  split_cell [10; 11; 12; 13; 14]%nat [20; 21; 22; 23; 24]%nat
  = ([10; 11]%nat, [20; 21]%nat, [12; 13; 14]%nat, [22; 23; 24]%nat) /\
  let X := [10; 11; 12; 13; 14]%nat in
  let y := [20; 21; 22; 23; 24]%nat in
  let k := Z.to_nat (2 * Z.of_nat (length X) / 5) in
  let '(train_x, train_y, test_x, test_y) := split_cell X y in
  train_x = take k X /\ test_x = drop k X /\
  train_y = take k y /\ test_y = drop k y /\
  length train_x = k /\
  (length train_x + length test_x = length X)%nat /\
  train_x ++ test_x = X /\
  (forall p, (p < k)%nat -> train_x !! p = X !! p) /\
  (forall p, (k <= p)%nat -> test_x !! (p - k)%nat = X !! p) /\
  (NoDup X -> forall row, row ∈ train_x -> row ∉ test_x).
Proof.
  split; [reflexivity |].
  apply (split_partitions_rows [10; 11; 12; 13; 14]%nat
           [20; 21; 22; 23; 24]%nat); [simpl; lia | reflexivity].
Defined.

(** *** Cells 8, 9 and 12: [train] and [cleanup] *)

Section Training.
Context `{L : Library (list (list fval)) (list fval)}.
Variable train_x : list (list fval).
Variable train_y : list fval.

Local Abbreviation train_body := (LOVE.train_body train_x train_y).
Local Abbreviation update := (LOVE.update train_x train_y).
Local Abbreviation progress_line := (LOVE.progress_line train_x train_y).
Local Abbreviation progress_lines := (LOVE.progress_lines train_x train_y).

(** One pass through the body: it returns, makes the five calls in
    order, prints one line and applies one update. *)
Lemma love_train_body_run n (i : nat) (s : session L) :
  exists s', train_body n (0 + Z.of_nat i) s = (Ok tt, s') /\
    state s' = update (model_training s) (state s) /\
    calls s' = calls s ++ iteration_calls /\
    stdout s' = stdout s ++ [progress_line (model_training s) n i (params s)] /\
    same_frame s s'.
Proof.
  unfold LOVE.train_body, state, LOVE.update, LOVE.progress_line, LOVE.loss_at.
  unfold bind, zero_grad, model_call, exact_mll_call, backward_call, print,
    optimizer_step, log, modify, gets, ret, bind. cbn.
  destruct (optimizer_update _ _ _) as [o p] eqn:E.
  eexists. split; [reflexivity |]. cbn.
  repeat split.
  by repeat rewrite <- app_assoc.
Qed.

Lemma love_train_loop_run n k : forall (i : nat) (s : session L),
  exists s',
    for_each (map (fun j => 0 + Z.of_nat j) (seq i k)) (train_body n) s
    = (Ok tt, s') /\
    state s' = Nat.iter k (update (model_training s)) (state s) /\
    calls s' = calls s ++ concat (replicate k iteration_calls) /\
    stdout s' = stdout s ++ progress_lines (model_training s) n i k (state s) /\
    same_frame s s'.
Proof.
  induction k as [|k IH]; intros i s.
  - exists s. cbn. rewrite !app_nil_r. repeat split.
  - destruct (love_train_body_run n i s) as (s1 & Hrun & Hst & Hcalls & Hout & Hfr).
    destruct (IH (S i) s1) as (s2 & Hrun2 & Hst2 & Hcalls2 & Hout2 & Hfr2).
    assert (model_training s1 = model_training s) as Htr by apply Hfr.
    exists s2. split.
    { cbn [seq map for_each]. by rewrite (bind_ok _ _ _ _ _ Hrun). }
    rewrite Htr in *.
    split; [by rewrite Hst2, Hst, Nat.iter_succ_r |].
    split; [rewrite Hcalls2, Hcalls; cbn [replicate concat];
            by rewrite app_assoc |].
    split; [| by eapply same_frame_trans].
    rewrite Hout2, Hout, Hst. cbn [LOVE.progress_lines].
    by rewrite <- app_assoc.
Qed.

(** [train(n)] as a whole. *)
Lemma love_train_run n (s : session L) :
  exists s', train train_x train_y n s = (Ok tt, s') /\
    state s' = Nat.iter (Z.to_nat n) (update (model_training s)) (state s) /\
    calls s' = calls s ++ concat (replicate (Z.to_nat n) iteration_calls) /\
    stdout s' = stdout s
                ++ progress_lines (model_training s) n 0 (Z.to_nat n) (state s) /\
    same_frame s s'.
Proof.
  unfold train, range, range2. rewrite Z.sub_0_r.
  apply love_train_loop_run.
Qed.

Lemma love_progress_lines_length tr n k : forall i st,
  length (progress_lines tr n i k st) = k.
Proof. induction k as [|k IH]; intros i st; cbn; [done | by rewrite IH]. Qed.

Lemma love_progress_lines_lookup tr n k : forall i st j, (j < k)%nat ->
  progress_lines tr n i k st !! j
  = Some (progress_line tr n (i + j) (Nat.iter j (update tr) st).1.1).
Proof.
  induction k as [|k IH]; intros i st j Hj; [lia |].
  destruct j as [|j]; cbn [LOVE.progress_lines].
  - cbn. by rewrite Nat.add_0_r.
  - rewrite lookup_cons, (IH (S i) (update tr st) j) by lia.
    replace (S i + j)%nat with (i + S j)%nat by lia.
    by rewrite Nat.iter_succ_r.
Qed.

(** [cleanup()] puts model and likelihood back in training mode. *)
Lemma cleanup_run (s : session L) :
  exists s', cleanup s = (Ok tt, s') /\
    model_training s' = true /\ likelihood_training s' = true /\
    state s' = state s /\
    calls s' = calls s ++ [GcCollect; EmptyCache; ModelTrain; LikelihoodTrain].
Proof.
  unfold cleanup, model_train, likelihood_train, bind, log, modify.
  eexists. split; [reflexivity |]. cbn.
  repeat split. by repeat rewrite <- app_assoc.
Qed.

End Training.

(** The stub optimizer counts 100 steps for [train(100)], and the first
    and last lines have the layout of the lines recorded in the notebook
    (["  1/100 | Loss:  1.060"], ["100/100 | Loss:  0.070"]). *)
Example train_100_on_stub :
  let r := train (L := Stub.counting _ _) [] [] 100 Stub.fresh in
  r.1 = Ok tt /\ opt r.2 = 100 /\ length (stdout r.2) = 100%nat /\
  stdout r.2 !! 0%nat = Some "  1/100 | Loss: 0" /\
  stdout r.2 !! 99%nat = Some "100/100 | Loss: -99".
Proof. vm_compute. by repeat split. Qed.

(** The split index for the 3338 rows of the skillcraft data. *)
Example train_n_skillcraft : train_n 3338 = 1335.
Proof. reflexivity. Qed.

End LOVEFacts.
(** ** The deep-kernel-learning notebook *)

Module DKLFacts.
Import PyFacts TorchFacts DKL.

(** *** Dataset selection *)

Lemma not_allowed dataset :
  dataset ∉ allowed <-> dataset <> "cifar10" /\ dataset <> "cifar100".
Proof. unfold allowed. by rewrite not_elem_of_union, !not_elem_of_singleton. Qed.

(** C7.  The selection cell raises exactly when the name is not one of
    the two allowed names, the error is the [RuntimeError] that names
    both, and for the two allowed names it binds the sets, the loaders
    and the class count (10 and 100). *)
Theorem select_dataset_guard :
  (forall dataset,
     ((exists e, select_dataset dataset = Raise e) <-> dataset ∉ allowed) /\
     (forall e, select_dataset dataset = Raise e ->
                e = RuntimeError selection_error)) /\
  select_dataset "cifar10" = Ok (make_selection CIFAR10 10) /\
  select_dataset "cifar100" = Ok (make_selection CIFAR100 100).
Proof.
  split; [| by split].
  intros dataset. rewrite not_allowed. unfold select_dataset.
  destruct (String.eqb_spec dataset "cifar10") as [-> | H10].
  { split; [| by intros e].
    split; [by intros [e He] | by intros [? _]]. }
  destruct (String.eqb_spec dataset "cifar100") as [-> | H100].
  { split; [| by intros e].
    split; [by intros [e He] | by intros [_ ?]]. }
  split; [| by intros e [= <-]].
  split; [done | by eexists].
Qed.

Section Harness.
Context {Input Target : Type} `{L : Library Input Target}.
Variable train_loader : loader Input Target.
Variable test_loader : loader Input Target.

Local Abbreviation train_body := (DKL.train_body train_loader).
Local Abbreviation update := (DKL.update train_loader).
Local Abbreviation progress_line := (DKL.progress_line train_loader).
Local Abbreviation progress_lines := (DKL.progress_lines train_loader).

(** *** [train] *)

(** One pass through the body, in training mode: the five calls, one
    update, and a line when the 1-based batch index is a multiple of
    50. *)
Lemma dkl_train_body_run epoch (i : nat) b (s : session L) :
  model_training s = true ->
  exists s',
    train_body epoch (dataset_len train_loader) (Z.of_nat i, b) s
    = (Ok tt, s') /\
    state s' = update (state s) b /\
    calls s' = calls s ++ iteration_calls /\
    stdout s' = stdout s ++
      (if (Z.of_nat i + 1) mod 50 =? 0
       then [progress_line epoch i (params s) b] else []) /\
    same_frame s s'.
Proof.
  intros Htr. destruct b as [data target].
  unfold DKL.train_body, state, DKL.update, DKL.progress_line, DKL.loss_at.
  unfold bind, zero_grad, model_call, variational_mll_call, backward_call,
    optimizer_step, log, modify, gets, ret, bind. cbn. rewrite Htr.
  destruct ((Z.of_nat i + 1) mod 50 =? 0);
    unfold print, modify, ret; cbn;
    destruct (optimizer_update _ _ _) as [o p] eqn:E;
    (eexists; split; [reflexivity |]); cbn;
    repeat split; rewrite <- ?app_assoc, ?app_nil_r; done.
Qed.

Lemma dkl_train_loop_run epoch bs : forall (i : nat) (s : session L),
  model_training s = true ->
  exists s',
    for_each (zip (map Z.of_nat (seq i (length bs))) bs)
      (train_body epoch (dataset_len train_loader)) s = (Ok tt, s') /\
    state s' = fold_left update bs (state s) /\
    calls s' = calls s ++ concat (replicate (length bs) iteration_calls) /\
    stdout s' = stdout s ++ progress_lines epoch i bs (state s) /\
    same_frame s s'.
Proof.
  induction bs as [|b bs IH]; intros i s Htr.
  - exists s. cbn. rewrite !app_nil_r. repeat split.
  - destruct (dkl_train_body_run epoch i b s Htr)
      as (s1 & Hrun & Hst & Hcalls & Hout & Hfr).
    assert (model_training s1 = true) as Htr1 by (by destruct Hfr as [-> _]).
    destruct (IH (S i) s1 Htr1) as (s2 & Hrun2 & Hst2 & Hcalls2 & Hout2 & Hfr2).
    exists s2. split.
    { cbn [length seq map zip zip_with for_each].
      by rewrite (bind_ok _ _ _ _ _ Hrun). }
    split; [by rewrite Hst2, Hst |].
    split; [rewrite Hcalls2, Hcalls; cbn [length replicate concat];
            by rewrite app_assoc |].
    split; [| by eapply same_frame_trans].
    rewrite Hout2, Hout, Hst. cbn [DKL.progress_lines].
    by rewrite <- app_assoc.
Qed.

(** [train(epoch)] as a whole. *)
Lemma dkl_train_run epoch (s : session L) :
  exists s', train train_loader epoch s = (Ok tt, s') /\
    state s' = fold_left update (batches train_loader) (state s) /\
    calls s' = calls s ++ [ModelTrain; LikelihoodTrain]
               ++ concat (replicate (length (batches train_loader))
                            iteration_calls) /\
    stdout s' = stdout s
                ++ progress_lines epoch 0 (batches train_loader) (state s) /\
    model_training s' = true /\ likelihood_training s' = true /\
    names s' = names s /\ files s' = files s.
Proof.
  unfold train, enumerate, model_train, likelihood_train, bind, modify, log.
  cbn.
  match goal with |- exists _, for_each _ _ ?s0 = _ /\ _ => set (s1 := s0) end.
  destruct (dkl_train_loop_run epoch (batches train_loader) 0%nat s1 eq_refl)
    as (s2 & Hrun & Hst & Hcalls & Hout & Hfr1 & Hfr2 & Hfr3 & Hfr4).
  exists s2. split; [exact Hrun |].
  split; [exact Hst |].
  split; [rewrite Hcalls; subst s1; cbn; by rewrite <- !app_assoc |].
  split; [exact Hout |].
  subst s1; cbn in *. done.
Qed.

(** A pass over [B] batches prints [floor(B / 50)] lines. *)
Lemma dkl_progress_lines_length epoch bs : forall i st,
  Z.of_nat (length (progress_lines epoch i bs st))
  = (Z.of_nat i + Z.of_nat (length bs)) / 50 - Z.of_nat i / 50.
Proof.
  induction bs as [|b bs IH]; intros i st.
  - cbn [DKL.progress_lines length]. change (Z.of_nat 0) with 0.
    rewrite Z.add_0_r. lia.
  - cbn [DKL.progress_lines length].
    rewrite length_app, Nat2Z.inj_add, IH, !Nat2Z.inj_succ.
    destruct (Z.eqb_spec ((Z.of_nat i + 1) mod 50) 0) as [E | E];
      cbn [length]; change (Z.of_nat 1) with 1; change (Z.of_nat 0) with 0;
      Z.div_mod_to_equations; lia.
Qed.

(** The lines of a pass, batch by batch: batch [j] contributes its line
    when [j + 1] is a multiple of 50 and nothing otherwise. *)
Lemma dkl_progress_lines_imap epoch bs : forall i st,
  progress_lines epoch i bs st
  = concat (imap (fun j b =>
                    if (Z.of_nat (i + j) + 1) mod 50 =? 0
                    then [progress_line epoch (i + j)
                            (fold_left update (take j bs) st).1.1 b]
                    else []) bs).
Proof.
  induction bs as [|b bs IH]; intros i st; [done |].
  cbn [DKL.progress_lines imap concat]. rewrite Nat.add_0_r.
  f_equal. rewrite IH. f_equal. apply imap_ext. intros j b' _.
  cbn [take fold_left]. by replace (S i + j)%nat with (i + S j)%nat by lia.
Qed.

(** *** [test] *)

(** The batch loop of [test]: no batch touches [test_loss]. *)
Lemma test_batches_run bs : forall (test_loss correct : Z) (s : session L),
  exists correct' s',
    for_fold bs (test_loss, correct)
      (fun '(test_loss, correct) '(data, target) =>
         bind (gets (fun s => count_correct (params s) data target))
           (fun c => bind (log Predict)
                       (fun _ => ret (test_loss, correct + c)))) s
    = (Ok (test_loss, correct'), s') /\
    state s' = state s /\ same_frame s s' /\ stdout s' = stdout s /\
    calls s' = calls s ++ replicate (length bs) Predict.
Proof.
  induction bs as [|[data target] bs IH]; intros test_loss correct s.
  - exists correct, s. cbn. rewrite app_nil_r. by repeat split.
  - cbn [for_fold]. unfold bind at 1. unfold bind, gets, log, modify, ret. cbn.
    match goal with |- exists _ _, for_fold _ (_, ?c0) _ ?s0 = _ /\ _ =>
      destruct (IH test_loss c0 s0)
        as (c' & s' & Hrun & Hst & Hfr & Hout & Hcalls)
    end.
    exists c', s'. split; [exact Hrun |].
    unfold state, same_frame in *. cbn in *.
    rewrite <- app_assoc in Hcalls. destruct Hfr as (? & ? & ? & ?).
    by repeat split.
Qed.

(** [test] up to its [print]: it raises [ZeroDivisionError] on an empty
    dataset and otherwise reaches the [print] with
    [test_loss = 0 / len(test_loader.dataset)]. *)
Lemma test_locals_run (s : session L) :
  exists correct s',
    test_locals test_loader s
    = (if dataset_len test_loader =? 0 then Raise ZeroDivisionError
       else Ok ((inject_Z 0 / inject_Z (dataset_len test_loader))%Q, correct),
       s') /\
    state s' = state s /\ names s' = names s /\ files s' = files s /\
    stdout s' = stdout s /\
    calls s' = calls s ++ [ModelEval; LikelihoodEval]
               ++ replicate (length (batches test_loader)) Predict.
Proof.
  unfold test_locals.
  unfold bind at 1. unfold model_eval, bind, modify, log. cbn.
  unfold likelihood_eval, bind, modify, log. cbn.
  match goal with
  | |- exists _ _, match for_fold ?bs (?t, ?c) ?body ?s0 with _ => _ end = _ /\ _ =>
      destruct (test_batches_run bs t c s0)
        as (c' & s' & Hrun & Hst & Hfr & Hout & Hcalls)
  end.
  exists c', s'. unfold bind, gets, log, modify, ret in Hrun |- *. rewrite Hrun.
  unfold state, same_frame in *.
  unfold truediv. destruct (dataset_len test_loader =? 0); cbn in *;
    (split; [reflexivity |]); destruct Hfr as (? & ? & ? & ?);
    rewrite <- !app_assoc in Hcalls; done.
Qed.

(** [test] as a whole changes neither parameters, names nor files; on
    a session that does not bind [tes_loader] it raises [NameError]
    and prints nothing. *)
Lemma test_run (s : session L) :
  exists r s', test test_loader s = (r, s') /\
    state s' = state s /\ names s' = names s /\ files s' = files s /\
    calls s' = calls s ++ [ModelEval; LikelihoodEval]
               ++ replicate (length (batches test_loader)) Predict /\
    (names s !! "tes_loader" = None -> dataset_len test_loader <> 0 ->
     r = Raise (NameError "tes_loader") /\ stdout s' = stdout s) /\
    (forall l, names s !! "tes_loader" = Some (VLoader l) ->
               dataset_len test_loader <> 0 -> r = Ok tt).
Proof.
  unfold test. unfold bind at 1.
  destruct (test_locals_run s) as (c & s1 & Hrun & Hst & Hn & Hf & Hout & Hcalls).
  rewrite Hrun.
  destruct (Z.eqb_spec (dataset_len test_loader) 0) as [E | E].
  { eexists _, s1. split; [reflexivity |]. by repeat split. }
  unfold bind at 1. unfold lookup_name. rewrite Hn.
  destruct (names s !! "tes_loader") as [v|] eqn:Hv.
  - destruct v as [sd | l | z]; unfold bind, raise, ret, print, modify; cbn;
      (eexists _, _; split; [reflexivity |]); cbn; by repeat split.
  - eexists _, s1. split; [reflexivity |]. by repeat split.
Qed.

(** C10.  On every session and every test loader over a non-empty
    dataset, [test] reaches its [print] with [test_loss] equal to 0:
    the variable is set to 0, no batch updates it, and it is divided
    by the dataset length.  (No [DataLoader] with [shuffle=True] exists
    over an empty dataset; see [test_empty_dataset] for what the
    division does there.) *)
Theorem test_average_loss_is_zero (s : session L) :
  dataset_len test_loader <> 0 ->
  exists test_loss correct s',
    test_locals test_loader s = (Ok (test_loss, correct), s') /\
    (test_loss == 0)%Q.
Proof.
  intros Hlen.
  destruct (test_locals_run s) as (c & s' & Hrun & _).
  destruct (Z.eqb_spec (dataset_len test_loader) 0) as [E | E]; [done |].
  eexists _, c, s'. split; [exact Hrun |].
  unfold Qdiv. apply Qmult_0_l.
Qed.

Lemma test_empty_dataset (s : session L) :
  dataset_len test_loader = 0 ->
  exists s', test_locals test_loader s = (Raise ZeroDivisionError, s').
Proof.
  intros Hlen. destruct (test_locals_run s) as (c & s' & Hrun & _).
  rewrite Hlen in Hrun. by exists s'.
Qed.

(** *** The epoch loop *)

(** The first pass through the body of the epoch loop, on a session
    that does not bind [state_dict]: it raises before [torch.save]. *)
Lemma epoch_body_run epoch (s : session L) :
  names s !! "state_dict" = None ->
  exists e s', epoch_body train_loader test_loader epoch s = (Raise e, s') /\
    files s' = files s /\
    count OptStep (calls s')
    = (count OptStep (calls s) + length (batches train_loader))%nat /\
    (names s !! "tes_loader" = None -> dataset_len test_loader <> 0 ->
     e = NameError "tes_loader") /\
    (forall l, names s !! "tes_loader" = Some (VLoader l) ->
               dataset_len test_loader <> 0 -> e = NameError "state_dict").
Proof.
  intros Hsd. unfold epoch_body.
  erewrite bind_ok by reflexivity.
  erewrite bind_ok by reflexivity.
  match goal with |- context [bind (train _ _) _ ?s0] => set (s1 := s0) end.
  destruct (dkl_train_run epoch s1)
    as (s2 & Hrun & Hst & Hcalls & Hout & Hm & Hl & Hn & Hf).
  rewrite (bind_ok _ _ _ _ _ Hrun).
  destruct (test_run s2)
    as (r & s3 & Htest & Hst3 & Hn3 & Hf3 & Hcalls3 & Hnone & Hsome).
  assert (count OptStep (calls s3)
          = (count OptStep (calls s) + length (batches train_loader))%nat)
    as Hcount.
  { rewrite Hcalls3, Hcalls, !count_app, count_iteration_calls,
      count_replicate_ne by done.
    subst s1. cbn [calls with_calls with_opt with_names]. rewrite count_app.
    change (count OptStep [SchedulerStep]) with 0%nat.
    change (count OptStep [ModelTrain; LikelihoodTrain]) with 0%nat.
    change (count OptStep [ModelEval; LikelihoodEval]) with 0%nat. lia. }
  assert (forall name, name <> "epoch" -> names s2 !! name = names s !! name)
    as Hnames.
  { intros name Hne. rewrite Hn. subst s1. cbn. by rewrite lookup_insert_ne. }
  assert (files s3 = files s) as Hfiles.
  { rewrite Hf3, Hf. by subst s1. }
  destruct r as [[] | e].
  - rewrite (bind_ok _ _ _ _ _ Htest).
    erewrite bind_ok by reflexivity.
    erewrite bind_ok by reflexivity.
    erewrite bind_ok by reflexivity.
    erewrite bind_ok by reflexivity.
    erewrite bind_raise.
    2:{ unfold lookup_name. cbn. rewrite !lookup_insert_ne by done.
        rewrite Hn3, Hnames, Hsd by done. reflexivity. }
    eexists _, _. split; [reflexivity |]. cbn [files calls with_names].
    split; [done |]. split; [done |]. split; [| done].
    intros Htes Hlen. destruct Hnone as [? _]; [| done | done].
    by rewrite Hnames.
  - rewrite (bind_raise _ _ _ _ _ Htest).
    exists e, s3. split; [done |]. split; [done |]. split; [done |].
    split.
    + intros Htes Hlen. destruct Hnone as [? _]; [| done | congruence].
      by rewrite Hnames.
    + intros l Htes Hlen. exfalso.
      assert (Raise e = Ok tt :> result unit); [| done].
      apply (Hsome l); [| done]. by rewrite Hnames.
Qed.

(** C4 fails on the code.  On a session that does not bind the name
    [state_dict] (no cell of the notebook does: the loop binds
    [stat_dict]), the epoch loop raises during its first pass, after
    one pass of training, and never calls [torch.save]: the files are
    as they were.  The exception is the [NameError] for [tes_loader]
    raised by [test] when that name is unbound too, and the
    [NameError] for [state_dict] when [tes_loader] is bound to a
    loader. *)
Theorem epoch_loop_writes_no_checkpoint (s : session L) :
  names s !! "state_dict" = None ->
  exists e s', train_the_model train_loader test_loader s = (Raise e, s') /\
    files s' = files s /\
    count OptStep (calls s')
    = (count OptStep (calls s) + length (batches train_loader))%nat /\
    (names s !! "tes_loader" = None -> dataset_len test_loader <> 0 ->
     e = NameError "tes_loader") /\
    (forall l, names s !! "tes_loader" = Some (VLoader l) ->
               dataset_len test_loader <> 0 -> e = NameError "state_dict").
Proof.
  intros Hsd. unfold train_the_model, epoch_loop, n_epochs.
  rewrite range2_cons by lia. cbn [for_each].
  destruct (epoch_body_run 1 s Hsd) as (e & s' & Hrun & Hfiles & Hrest).
  exists e, s'. split; [| by split].
  by rewrite (bind_raise _ _ _ _ _ Hrun).
Qed.

(** And on a session that does bind [state_dict] (and [tes_loader]),
    the ["model"] group of the checkpoint written after an epoch is
    that old value, whatever the epoch did to the model: the file holds
    the current state only if the old value happens to be it. *)
Lemma epoch_body_saves_stale epoch (s : session L) v l :
  names s !! "state_dict" = Some v ->
  names s !! "tes_loader" = Some (VLoader l) ->
  dataset_len test_loader <> 0 ->
  exists s', epoch_body train_loader test_loader epoch s = (Ok tt, s') /\
    files s' !! checkpoint_path
    = Some (<["model" := v]>
              (<["likelihood" :=
                   VStateDict (likelihood_state_dict (params s'))]> ∅)) /\
    (files s' !! checkpoint_path = Some (current_checkpoint s') ->
     v = VStateDict (model_state_dict (params s'))).
Proof.
  intros Hsd Htes Hlen. unfold epoch_body.
  erewrite bind_ok by reflexivity.
  erewrite bind_ok by reflexivity.
  match goal with |- context [bind (train _ _) _ ?s0] => set (s1 := s0) end.
  destruct (dkl_train_run epoch s1)
    as (s2 & Hrun & Hst & Hcalls & Hout & Hm & Hl & Hn & Hf).
  rewrite (bind_ok _ _ _ _ _ Hrun).
  destruct (test_run s2)
    as (r & s3 & Htest & Hst3 & Hn3 & Hf3 & Hcalls3 & Hnone & Hsome).
  assert (forall name, name <> "epoch" -> names s2 !! name = names s !! name)
    as Hnames.
  { intros name Hne. rewrite Hn. subst s1. cbn. by rewrite lookup_insert_ne. }
  rewrite (Hsome l) in Htest; [| by rewrite Hnames | done].
  rewrite (bind_ok _ _ _ _ _ Htest).
  erewrite bind_ok by reflexivity.
  erewrite bind_ok by reflexivity.
  erewrite bind_ok by reflexivity.
  erewrite bind_ok by reflexivity.
  erewrite bind_ok.
  2:{ unfold lookup_name. cbn. rewrite !lookup_insert_ne by done.
      rewrite Hn3, Hnames, Hsd by done. reflexivity. }
  erewrite bind_ok.
  2:{ unfold lookup_name. cbn. rewrite lookup_insert_eq. reflexivity. }
  unfold torch_save, bind, modify, log.
  eexists. split; [reflexivity |].
  unfold current_checkpoint.
  cbn [files params with_files with_calls with_names].
  rewrite lookup_insert_eq. split; [done |].
  intros Heq. apply (inj Some) in Heq.
  apply (f_equal (fun m : gmap string (pyval L) => m !! "model")) in Heq.
  rewrite !lookup_insert_eq in Heq. by injection Heq.
Qed.

End Harness.

(** [test_average_loss_is_zero] on the stub session, with a test loader
    of three batches over 150 items. *)
Lemma test_average_loss_is_zero_witness :
  dataset_len (Stub.unit_loader 3 150) <> 0 /\
  exists test_loss correct s',
    test_locals (Stub.unit_loader 3 150) Stub.fresh
    = (Ok (test_loss, correct), s') /\
    (test_loss == 0)%Q.
Proof.
  split; [done |].
  by apply (@test_average_loss_is_zero unit unit (Stub.counting unit unit)
              (Stub.unit_loader 3 150) Stub.fresh).
Defined.

(** [epoch_loop_writes_no_checkpoint] on the stub session, which binds no
    name at all, as a freshly started kernel. *)
Lemma epoch_loop_writes_no_checkpoint_witness :
  names (@Stub.fresh unit unit) !! "state_dict" = None /\
  exists e s',
    train_the_model (Stub.unit_loader 2 128) (Stub.unit_loader 3 150) Stub.fresh
    = (Raise e, s') /\
    files s' = files (@Stub.fresh unit unit) /\
    count OptStep (calls s')
    = (count OptStep (calls (@Stub.fresh unit unit))
       + length (batches (Stub.unit_loader 2 128)))%nat /\
    (names (@Stub.fresh unit unit) !! "tes_loader" = None ->
     dataset_len (Stub.unit_loader 3 150) <> 0 ->
     e = NameError "tes_loader") /\
    (forall l, names (@Stub.fresh unit unit) !! "tes_loader" = Some (VLoader l) ->
               dataset_len (Stub.unit_loader 3 150) <> 0 ->
               e = NameError "state_dict").
Proof.
  split; [done |].
  by apply (@epoch_loop_writes_no_checkpoint unit unit (Stub.counting unit unit)
              (Stub.unit_loader 2 128) (Stub.unit_loader 3 150) Stub.fresh).
Defined.

(** The same run, evaluated: the cell stops in its first epoch with the
    [NameError] of [test], having written no file. *)
Lemma fresh_kernel_run :
  let r := train_the_model (L := Stub.counting unit unit)
             (Stub.unit_loader 2 128) (Stub.unit_loader 3 150) Stub.fresh in
  r.1 = Raise (NameError "tes_loader") /\
  files r.2 = ∅ /\ stdout r.2 = [] /\ names r.2 !! "epoch" = Some (VInt 1).
Proof. vm_compute. by repeat split. Qed.

End DKLFacts.

(** ** Both training loops *)

Module HarnessFacts.
Import PyFacts TorchFacts.

(** C1.  [train(n)] of the LOVE notebook returns after [n] passes through
    its body (none when [n] is negative: [Z.to_nat n] is [n] for every
    [n >= 0]), and [train(epoch)] of the DKL notebook after one pass per
    batch of the loader.  Each pass makes the calls [zero_grad], model,
    loss, [backward], [step] in this order, so the optimizer steps as
    often as the loop iterates, and each pass computes the loss from the
    parameters the previous pass left, on the training data, and adds
    its gradient to cleared buffers ([update]).  No pass ends the loop
    early: the result is always [Ok]. *)
Theorem training_loops_run_every_iteration :
  (forall (L : Library (list (list LOVE.fval)) (list LOVE.fval)) train_x train_y n
          (s : session L),
     exists s', LOVE.train train_x train_y n s = (Ok tt, s') /\
       calls s' = calls s ++ concat (replicate (Z.to_nat n) iteration_calls) /\
       count OptStep (calls s') = (count OptStep (calls s) + Z.to_nat n)%nat /\
       state s'
       = Nat.iter (Z.to_nat n)
           (LOVE.update train_x train_y (model_training s)) (state s)) /\
  (forall Input Target (L : Library Input Target) train_loader epoch
          (s : session L),
     exists s', DKL.train train_loader epoch s = (Ok tt, s') /\
       calls s' = calls s ++ [ModelTrain; LikelihoodTrain]
                  ++ concat (replicate (length (batches train_loader))
                               iteration_calls) /\
       count OptStep (calls s')
       = (count OptStep (calls s) + length (batches train_loader))%nat /\
       state s'
       = fold_left (DKL.update train_loader) (batches train_loader) (state s)).
Proof.
  split.
  - intros L train_x train_y n s.
    destruct (LOVEFacts.love_train_run train_x train_y n s)
      as (s' & Hrun & Hst & Hcalls & _).
    exists s'. split; [done |]. split; [done |]. split; [| done].
    by rewrite Hcalls, count_app, count_iteration_calls.
  - intros Input Target L train_loader epoch s.
    destruct (DKLFacts.dkl_train_run train_loader epoch s)
      as (s' & Hrun & Hst & Hcalls & _).
    exists s'. split; [done |]. split; [done |]. split; [| done].
    rewrite Hcalls, !count_app, count_iteration_calls.
    change (count OptStep [ModelTrain; LikelihoodTrain]) with 0%nat. lia.
Qed.

(** C8, as stated, fails on the DKL loop: a pass of 49 iterations prints
    no line. *)
Lemma dkl_iterations_without_line :
  let r := DKL.train (L := Stub.counting unit unit)
             (Stub.unit_loader 49 3136) 1 Stub.fresh in
  r.1 = Ok tt /\ count OptStep (calls r.2) = 49%nat /\ stdout r.2 = [].
Proof. vm_compute. by repeat split. Qed.

(** C8, as amended.  [train(n)] of the LOVE notebook prints one line per
    iteration, holding the 1-based iteration index, [n] and the loss
    computed in that iteration.  [train(epoch)] of the DKL notebook
    prints a line (epoch, 1-based batch index, number of batches, loss
    of that batch) only in the iterations whose 1-based batch index is a
    multiple of 50, so [floor(B / 50)] lines for [B] batches. *)
Theorem progress_lines_printed :
  (forall (L : Library (list (list LOVE.fval)) (list LOVE.fval)) train_x train_y n
          (s : session L),
     exists s' lines, LOVE.train train_x train_y n s = (Ok tt, s') /\
       stdout s' = stdout s ++ lines /\
       length lines = Z.to_nat n /\
       forall i, (i < Z.to_nat n)%nat ->
         lines !! i
         = Some (LOVE.progress_line train_x train_y (model_training s) n i
                   (Nat.iter i (LOVE.update train_x train_y (model_training s))
                      (state s)).1.1)) /\
  (forall Input Target (L : Library Input Target) train_loader epoch
          (s : session L),
     exists s' lines, DKL.train train_loader epoch s = (Ok tt, s') /\
       stdout s' = stdout s ++ lines /\
       lines = concat (imap (fun j b =>
                 if (Z.of_nat j + 1) mod 50 =? 0
                 then [DKL.progress_line train_loader epoch j
                         (fold_left (DKL.update train_loader)
                            (take j (batches train_loader)) (state s)).1.1 b]
                 else []) (batches train_loader)) /\
       Z.of_nat (length lines) = DKL.len train_loader / 50).
Proof.
  split.
  - intros L train_x train_y n s.
    destruct (LOVEFacts.love_train_run train_x train_y n s)
      as (s' & Hrun & _ & _ & Hout & _).
    eexists s', _. split; [done |]. split; [exact Hout |].
    split; [apply LOVEFacts.love_progress_lines_length |].
    intros i Hi. by rewrite LOVEFacts.love_progress_lines_lookup.
  - intros Input Target L train_loader epoch s.
    destruct (DKLFacts.dkl_train_run train_loader epoch s)
      as (s' & Hrun & _ & _ & Hout & _).
    eexists s', _. split; [done |]. split; [exact Hout |].
    split; [by rewrite DKLFacts.dkl_progress_lines_imap |].
    rewrite DKLFacts.dkl_progress_lines_length. unfold DKL.len.
    change (Z.of_nat 0) with 0. rewrite Z.add_0_l.
    change (0 / 50) with 0. lia.
Qed.

End HarnessFacts.

(** ** More on the LOVE notebook *)

Module LOVEExtra.
Import PyFacts TorchFacts LOVE F32Facts LOVEFacts.

(** *** Cell 3: the download *)

(** X1.  When the data file exists the cell fetches nothing and prints
    nothing.  When it does not, the cell prints its message and then
    returns or raises as [urlretrieve] does, with the same exception, and
    leaves the file system that call left.  Provided a successful
    [urlretrieve] leaves the file in place, after the cell has returned
    the file exists and running the cell again changes nothing. *)
Theorem download_cell_fetches_once (FS : Type) (isfile : FS -> string -> bool)
    (urlretrieve : string -> string -> M FS unit) fs out r fs1 out1 :
  (forall fs fs', urlretrieve url DATA fs = (Ok tt, fs') ->
                  isfile fs' DATA = true) ->
  download_cell FS isfile urlretrieve (fs, out) = (r, (fs1, out1)) ->
  (isfile fs DATA = true -> r = Ok tt /\ fs1 = fs /\ out1 = out) /\
  (isfile fs DATA = false ->
   out1 = out ++ [download_message] /\
   urlretrieve url DATA fs = (r, fs1)) /\
  (r = Ok tt ->
   isfile fs1 DATA = true /\
   download_cell FS isfile urlretrieve (fs1, out1) = (Ok tt, (fs1, out1))).
Proof.
  intros Hfetch Hrun. unfold download_cell in Hrun.
  destruct (isfile fs DATA) eqn:Hfile; cbn [negb] in Hrun.
  - injection Hrun as <- <- <-.
    split; [done |]. split; [done |]. intros _. split; [done |].
    unfold download_cell. by rewrite Hfile.
  - destruct (urlretrieve url DATA fs) as [[[] | e] fs'] eqn:Hget;
      injection Hrun as <- <- <-.
    + split; [done |]. split; [done |].
      intros _. pose proof (Hfetch fs fs' Hget) as Hnow.
      split; [done |]. unfold download_cell. by rewrite Hnow.
    + split; [done |]. split; [done | done].
Qed.

(** The cell on an empty file system, then again on what it left. *)
Lemma download_cell_fetches_once_witness :
  (forall fs fs', Stub.set_urlretrieve url DATA fs = (Ok tt, fs') ->
                  Stub.set_isfile fs' DATA = true) /\
  download_cell _ Stub.set_isfile Stub.set_urlretrieve (∅, [])
  = (Ok tt, ({[DATA]} ∪ ∅, [download_message])) /\
  (Ok tt = Ok tt ->
   Stub.set_isfile ({[DATA]} ∪ ∅) DATA = true /\
   download_cell _ Stub.set_isfile Stub.set_urlretrieve
     ({[DATA]} ∪ ∅, [download_message])
   = (Ok tt, ({[DATA]} ∪ ∅, [download_message]))).
Proof.
  assert (forall fs fs', Stub.set_urlretrieve url DATA fs = (Ok tt, fs') ->
                         Stub.set_isfile fs' DATA = true) as Hfetch.
  { intros fs fs' [= <-]. unfold Stub.set_isfile.
    apply bool_decide_eq_true, elem_of_union_l. by apply elem_of_singleton. }
  assert (download_cell _ Stub.set_isfile Stub.set_urlretrieve (∅, [])
          = (Ok tt, ({[DATA]} ∪ ∅, [download_message]))) as Hrun by reflexivity.
  split; [exact Hfetch |]. split; [exact Hrun |].
  exact (proj2 (proj2 (download_cell_fetches_once _ _ _ _ _ _ _ _ Hfetch Hrun))).
Defined.

(** *** Cell 4: features and target *)

Lemma last_row_split {A} (row : list A) :
  (row = [] /\ exists e, index (-1) row = Raise e) \/
  (exists v, index (-1) row = Ok v /\ slice_to (-1) row ++ [v] = row).
Proof.
  destruct (decide (row = [])) as [-> | Hne].
  - left. split; [done |]. by eexists.
  - right. assert (exists c, length row = S c) as [c Hc].
    { destruct row; [done |]. by eexists. }
    destruct (lookup_lt_is_Some_2 row c) as [x Hx]; [lia |].
    exists x. split; [by apply (index_last row c) |].
    rewrite (slice_to_last row c Hc).
    rewrite <- (take_S_r row c x Hx). apply take_ge. lia.
Qed.

(** X2.  [data[:, :-1]] and [data[:, -1]] take [data] apart without loss:
    when the target column can be read, putting each target back at the
    end of its feature row gives [data] again; and the target column
    cannot be read exactly when some row of [data] is empty. *)
Theorem features_target_round_trip {A} (data : list (list A)) :
  (forall y, target data = Ok y ->
     length y = length data /\
     zip_with (fun row t => row ++ [t]) (features data) y = data) /\
  ((exists e, target data = Raise e) <-> [] ∈ data).
Proof.
  induction data as [|row data [IHok IHerr]].
  - split.
    + by intros y [= <-].
    + split; [by intros [e He] | intros H; inversion H].
  - cbn [target].
    change (features (row :: data)) with (slice_to (-1) row :: features data).
    destruct (last_row_split row) as [[-> [e He]] | [v [Hv Hrow]]].
    + rewrite He. split; [done |].
      split; [intros _; by left | by eexists].
    + rewrite Hv. destruct (target data) as [vs | e] eqn:Ht.
      * split.
        -- intros y [= <-]. destruct (IHok vs eq_refl) as [Hlen Hzip].
           cbn [length zip_with]. split; [by rewrite Hlen |].
           by rewrite Hrow, Hzip.
        -- split; [by intros [e He] |].
           intros [Heq | Hin]%elem_of_cons.
           ++ subst row. destruct (app_cons_not_nil _ _ _ (eq_sym Hrow)).
           ++ by apply IHerr in Hin as [e He].
      * split; [done |].
        split; [| by eexists].
        intros _. right. apply IHerr. by eexists.
Qed.

(** *** Cell 4: the scaling *)

(** X3.  On a feature column that is finite in float32, takes two
    distinct values there and has a finite width, the scaling never
    reverses the order of two entries: when [a <= b] in the data, the
    scaled entry for [a] is at most the scaled entry for [b]. *)
Theorem normalize_keeps_order data r c j lo hi :
  is_tensor2 r (S c) data -> (0 < r)%nat -> (j < c)%nat ->
  f32_range (to_tensor data) j lo hi -> (lo < hi)%Q ->
  (exists w, f32_sub (Fin hi) (Fin lo) = Fin w) ->
  exists X y, normalize_cell data = Ok (X, y) /\
    forall i i' a b,
      entry data i j = Some a -> entry data i' j = Some b -> (a <= b)%Q ->
      exists qa qb,
        entry X i j = Some (Fin qa) /\ entry X i' j = Some (Fin qb) /\
        (qa <= qb)%Q.
Proof.
  intros Hdata Hr Hj Hrange Hlt Hw.
  destruct (column_scaled data r c j lo hi Hdata Hr Hj Hrange Hlt Hw)
    as (X & y & xl & xh & Hcell & _ & _ & _ & Hxl & Hxh & Hwb & Hent).
  exists X, y. split; [done |]. intros i i' a b Ha Hb Hab.
  assert (forall k x, entry data k j = Some x ->
            entry (to_tensor data) k j = Some (Fin (rnd32 x))) as Hconv.
  { intros k x Hx.
    assert (entry (to_tensor data) k j = Some (round32 x)) as Ht
      by (by rewrite tensor_entry, Hx).
    destruct Hrange as (_ & _ & Hb').
    destruct (Hb' k _ Ht) as (x' & Hx' & _).
    rewrite Ht, Hx'. by apply round32_Fin in Hx' as [-> _]. }
  exists (scale32 lo hi (rnd32 a)), (scale32 lo hi (rnd32 b)).
  split; [apply Hent; by apply Hconv |].
  split; [apply Hent; by apply Hconv |].
  subst lo hi. apply scaled_mono; [done |]. by apply rnd32_mono.
Qed.

Lemma sample_is_tensor : is_tensor2 3 3 Stub.sample.
Proof. split; [reflexivity | repeat constructor]. Qed.

Lemma sample_column_0_range : f32_range (to_tensor Stub.sample) 0 1 3.
Proof.
  split; [by exists 0%nat |]. split; [by exists 1%nat |].
  intros [|[|[|i]]] v [= <-]; eexists; by repeat split.
Qed.

(** [normalize_keeps_order] on column 0 of the sample. *)
Lemma normalize_keeps_order_witness :
  exists X y, normalize_cell Stub.sample = Ok (X, y) /\
    forall i i' a b,
      entry Stub.sample i 0 = Some a -> entry Stub.sample i' 0 = Some b ->
      (a <= b)%Q ->
      exists qa qb,
        entry X i 0 = Some (Fin qa) /\ entry X i' 0 = Some (Fin qb) /\
        (qa <= qb)%Q.
Proof.
  apply (normalize_keeps_order Stub.sample 3 2 0 1 3).
  - exact sample_is_tensor.
  - lia.
  - lia.
  - exact sample_column_0_range.
  - reflexivity.
  - by eexists.
Defined.

(** X6.  The edges of the cell, for a [data] matrix of [r] rows and [c]
    columns: it raises when there is no row; with rows but no column it
    raises [IndexError] (at [data[:, -1]]); otherwise it returns [r] rows
    of [c - 1] features and [r] targets; and with a single row every
    feature is NaN. *)
Theorem normalize_cell_edges (data : list (list Q)) r c :
  is_tensor2 r c data ->
  (r = 0%nat -> exists e, normalize_cell data = Raise e) /\
  ((0 < r)%nat -> c = 0%nat ->
   exists msg, normalize_cell data = Raise (IndexError msg)) /\
  ((0 < r)%nat -> (0 < c)%nat ->
   exists X y, normalize_cell data = Ok (X, y) /\
               is_tensor2 r (c - 1) X /\ length y = r) /\
  (r = 1%nat -> (0 < c)%nat ->
   exists t, normalize_cell data = Ok ([replicate (c - 1) NaN], [t])).
Proof.
  intros Hdata. split; [| split; [| split]].
  - intros ->. destruct Hdata as [Hlen _].
    apply length_zero_iff_nil in Hlen as ->. by eexists.
  - intros Hr ->. destruct Hdata as [Hlen Hrows].
    destruct data as [|row data]; [simpl in Hlen; lia |].
    apply Forall_cons in Hrows as [Hrow _].
    apply length_zero_iff_nil in Hrow as ->.
    unfold normalize_cell, min0, max0, reduce0. cbn. by eexists.
  - intros Hr Hc. destruct c as [|c]; [lia |].
    destruct (normalize_cell_spec data r c Hdata Hr)
      as (mn & mx & X & y & _ & _ & Hcell & HX & Hlen & _).
    exists X, y. by replace (S c - 1)%nat with c by lia.
  - intros -> Hc. destruct c as [|c]; [lia |].
    replace (S c - 1)%nat with c by lia.
    destruct (normalize_cell_spec data 1 c Hdata ltac:(lia))
      as (mn & mx & X & y & _ & _ & Hcell & HX & Hlen & _ & Hcols).
    pose proof (is_tensor2_map_map round32 data 1 (S c) Hdata) as HT.
    fold (to_tensor data) in HT.
    destruct y as [|t [|? ?]]; try (simpl in Hlen; lia).
    exists t. rewrite Hcell. do 2 f_equal.
    destruct HX as [HXlen HXrows].
    destruct X as [|row [|? ?]]; try (simpl in HXlen; lia).
    f_equal. apply Forall_cons in HXrows as [Hrow _].
    apply list_eq. intros j.
    destruct (decide (j < c)%nat) as [Hj | Hj].
    + rewrite lookup_replicate_2 by done.
      destruct (Hcols j Hj) as (lo0 & w0 & _ & _ & _ & H2 & _ & H4 & Hent).
      assert (f32_constant (to_tensor data) j) as Hconst.
      { intros [|i] [|i'] u v Hu Hv.
        - rewrite Hu in Hv. by injection Hv as <-.
        - apply (entry_Some_lt _ 1 (S c)) in Hv; [lia | done].
        - apply (entry_Some_lt _ 1 (S c)) in Hu; [lia | done].
        - apply (entry_Some_lt _ 1 (S c)) in Hu; [lia | done]. }
      destruct (constant_column _ j lo0 w0 Hconst H2 H4) as (_ & _ & Hnan).
      destruct (entry_is_Some (to_tensor data) 1 (S c) 0 j HT) as [u Hu];
        [lia | lia |].
      pose proof (Hent 0%nat u Hu) as HX0.
      by rewrite (Hnan 0%nat u Hu) in HX0.
    + rewrite lookup_ge_None_2 by lia.
      symmetry. apply lookup_ge_None_2. rewrite length_replicate. lia.
Qed.

(** [normalize_cell_edges] on one row of two features and a target. *)
Lemma normalize_cell_edges_witness :
  normalize_cell [[4; 8; 15]]%Q = Ok ([[NaN; NaN]], [Fin 15]) /\
  exists t, normalize_cell [[4; 8; 15]]%Q = Ok ([replicate (3 - 1) NaN], [t]).
Proof.
  split; [by vm_compute |].
  assert (is_tensor2 1 3 [[4; 8; 15]]%Q) as Ht
    by (split; [reflexivity | repeat constructor]).
  apply (proj2 (proj2 (proj2 (normalize_cell_edges _ 1 3 Ht)))); [done | lia].
Defined.

(** *** Cell 5: the split *)

(** X7.  For a data set of [N] rows, [0 < N < 2^50]: the test part is
    never empty and never smaller than the training part, the training
    part has [floor (2 N / 5)] rows, and it is empty exactly when there are
    fewer than 3 rows. *)
Theorem split_sizes {A B} (X : list A) (y : list B) :
  (0 < length X)%nat -> Z.of_nat (length X) < 2 ^ 50 ->
  let '(train_x, train_y, test_x, test_y) := split_cell X y in
  (0 < length test_x)%nat /\
  (length train_x <= length test_x)%nat /\
  (5 * length train_x <= 2 * length X < 5 * length train_x + 5)%nat /\
  (length train_x = 0%nat <-> (length X < 3)%nat).
Proof.
  intros Hpos HN. unfold split_cell, slice_to, slice_from.
  rewrite train_n_exact by lia.
  assert (0 <= 2 * Z.of_nat (length X) / 5 <= Z.of_nat (length X)) as Hk.
  { split; [apply Z.div_pos; lia |]. apply Z.div_le_upper_bound; lia. }
  rewrite slice_bound_nonneg by done.
  rewrite length_take, length_drop.
  set (N := length X) in *.
  assert (Z.of_nat (Z.to_nat (2 * Z.of_nat N / 5)) = 2 * Z.of_nat N / 5) as E
    by lia.
  set (k := Z.to_nat (2 * Z.of_nat N / 5)) in *.
  assert (5 * Z.of_nat k <= 2 * Z.of_nat N < 5 * Z.of_nat k + 5) as Hdiv.
  { rewrite E. pose proof (Z.mul_div_le (2 * Z.of_nat N) 5 ltac:(lia)).
    pose proof (Z.mul_succ_div_gt (2 * Z.of_nat N) 5 ltac:(lia)). lia. }
  repeat split; lia.
Qed.

(** [split_sizes] on two rows: nothing is left to train on. *)
Lemma split_sizes_witness :
  split_cell [10; 11]%nat [20; 21]%nat = ([], [], [10; 11]%nat, [20; 21]%nat) /\
  let '(train_x, train_y, test_x, test_y) :=
    split_cell [10; 11]%nat [20; 21]%nat in
  (0 < length test_x)%nat /\
  (length train_x <= length test_x)%nat /\
  (5 * length train_x <= 2 * length [10; 11]%nat < 5 * length train_x + 5)%nat /\
  (length train_x = 0%nat <-> (length [10; 11]%nat < 3)%nat).
Proof.
  split; [reflexivity |].
  apply (split_sizes [10; 11]%nat [20; 21]%nat); [simpl; lia | reflexivity].
Defined.

(** X8.  When [y] has one target per row of [X], the split keeps each
    row with its target: the parts have matching lengths, and the training
    pairs followed by the test pairs are the pairs of [X] and [y]. *)
Theorem split_keeps_pairs {A B} (X : list A) (y : list B) :
  length y = length X ->
  let '(train_x, train_y, test_x, test_y) := split_cell X y in
  length train_y = length train_x /\ length test_y = length test_x /\
  train_y ++ test_y = y /\
  zip train_x train_y ++ zip test_x test_y = zip X y.
Proof.
  intros Hy. unfold split_cell, slice_to, slice_from. rewrite Hy.
  set (k := slice_bound _ _). cbv beta iota zeta.
  split; [rewrite !length_take; lia |].
  split; [rewrite !length_drop; lia |].
  split; [apply take_drop |].
  rewrite <- zip_with_take, <- zip_with_drop. apply take_drop.
Qed.

(** [split_keeps_pairs] on five rows. *)
Lemma split_keeps_pairs_witness :
  let '(train_x, train_y, test_x, test_y) :=
    split_cell [10; 11; 12; 13; 14]%nat [20; 21; 22; 23; 24]%nat in
  length train_y = length train_x /\ length test_y = length test_x /\
  train_y ++ test_y = [20; 21; 22; 23; 24]%nat /\
  zip train_x train_y ++ zip test_x test_y
  = zip [10; 11; 12; 13; 14]%nat [20; 21; 22; 23; 24]%nat.
Proof.
  apply (split_keeps_pairs [10; 11; 12; 13; 14]%nat [20; 21; 22; 23; 24]%nat).
  reflexivity.
Defined.

(** *** Cells 8 and 13: [train] and [cleanup] *)

Section Training.
Context `{L : Library (list (list fval)) (list fval)}.
Variable train_x : list (list fval).
Variable train_y : list fval.

Local Abbreviation update := (LOVE.update train_x train_y).
Local Abbreviation progress_lines := (LOVE.progress_lines train_x train_y).

(** X9.  Training resumes: [train(n)] followed by [train(m)] leaves the
    parameters, gradient and optimizer state of [train(n + m)], makes the
    same calls in the same order and prints as many lines. *)
Theorem train_resumes n m (s : session L) :
  0 <= n -> 0 <= m ->
  exists s1 s2 s12,
    train train_x train_y n s = (Ok tt, s1) /\
    train train_x train_y m s1 = (Ok tt, s2) /\
    train train_x train_y (n + m) s = (Ok tt, s12) /\
    state s2 = state s12 /\ calls s2 = calls s12 /\
    length (stdout s2) = length (stdout s12).
Proof.
  intros Hn Hm.
  destruct (love_train_run train_x train_y n s)
    as (s1 & Hrun1 & Hst1 & Hcalls1 & Hout1 & Hfr1).
  destruct (love_train_run train_x train_y m s1)
    as (s2 & Hrun2 & Hst2 & Hcalls2 & Hout2 & Hfr2).
  destruct (love_train_run train_x train_y (n + m) s)
    as (s12 & Hrun12 & Hst12 & Hcalls12 & Hout12 & Hfr12).
  exists s1, s2, s12. split; [done |]. split; [done |]. split; [done |].
  assert (model_training s1 = model_training s) as Htr by apply Hfr1.
  rewrite Htr in *.
  replace (Z.to_nat (n + m)) with (Z.to_nat m + Z.to_nat n)%nat in * by lia.
  split; [by rewrite Hst2, Hst1, Hst12, Nat.iter_add |].
  split.
  - rewrite Hcalls2, Hcalls1, Hcalls12, <- app_assoc. f_equal.
    rewrite (Nat.add_comm (Z.to_nat m)), replicate_add. by rewrite concat_app.
  - rewrite Hout2, Hout1, Hout12, !length_app, !love_progress_lines_length. lia.
Qed.

Lemma update_grad_irrelevant tr p g g' o :
  (forall g1 g2 : Grad, zeroed g1 = zeroed g2) ->
  update tr (p, g, o) = update tr (p, g', o).
Proof. intros Hz. unfold LOVE.update. by rewrite (Hz g g'). Qed.

(** X10.  When [zero_grad] leaves the same gradient whatever it finds,
    a gradient left over from before [train(n)], [n > 0], has no effect on
    the trained state nor on the losses printed. *)
Theorem love_train_clears_stale_gradients n (s : session L) (g0 : Grad) :
  (forall g1 g2 : Grad, zeroed g1 = zeroed g2) -> 0 < n ->
  exists s1 s2,
    train train_x train_y n s = (Ok tt, s1) /\
    train train_x train_y n (with_grad g0 s) = (Ok tt, s2) /\
    state s1 = state s2 /\ stdout s1 = stdout s2.
Proof.
  intros Hz Hn.
  destruct (love_train_run train_x train_y n s)
    as (s1 & Hrun1 & Hst1 & _ & Hout1 & _).
  destruct (love_train_run train_x train_y n (with_grad g0 s))
    as (s2 & Hrun2 & Hst2 & _ & Hout2 & _).
  exists s1, s2. split; [done |]. split; [done |].
  destruct (Z.to_nat n) as [|k] eqn:Hk; [lia |].
  unfold state in *. cbn [params grad opt model_training stdout with_grad] in *.
  rewrite Hst1, Hst2, Hout1, Hout2, !Nat.iter_succ_r.
  cbn [LOVE.progress_lines fst].
  by rewrite (update_grad_irrelevant _ _ g0 (grad s)).
Qed.

(** X11.  [train(n)] always returns, and it leaves the train/eval mode of
    the model and of the likelihood, the names bound and the files as they
    were; for [n <= 0] it does nothing at all. *)
Theorem love_train_frame n (s : session L) :
  exists s', train train_x train_y n s = (Ok tt, s') /\
    model_training s' = model_training s /\
    likelihood_training s' = likelihood_training s /\
    names s' = names s /\ files s' = files s /\
    (n <= 0 -> s' = s).
Proof.
  destruct (Z_le_gt_dec n 0) as [Hle | Hgt].
  - exists s. unfold train, range, range2.
    assert (Z.to_nat (n - 0) = 0%nat) as -> by lia. by repeat split.
  - destruct (love_train_run train_x train_y n s)
      as (s' & Hrun & _ & _ & _ & H1 & H2 & H3 & H4).
    exists s'. repeat split; try done; intros; lia.
Qed.

(** X12.  After [cleanup()], whatever mode the predictions had left the
    model in, [train(n)] runs every iteration with the model in training
    mode and leaves model and likelihood in training mode. *)
Theorem cleanup_then_train n (s : session L) :
  exists s1 s2,
    cleanup s = (Ok tt, s1) /\ train train_x train_y n s1 = (Ok tt, s2) /\
    state s2 = Nat.iter (Z.to_nat n) (update true) (state s) /\
    stdout s2 = stdout s ++ progress_lines true n 0 (Z.to_nat n) (state s) /\
    model_training s2 = true /\ likelihood_training s2 = true.
Proof.
  destruct (cleanup_run s) as (s1 & Hrun1 & Hm & Hl & Hst & Hcalls).
  destruct (love_train_run train_x train_y n s1)
    as (s2 & Hrun2 & Hst2 & _ & Hout2 & H1 & H2 & _).
  exists s1, s2. split; [done |]. split; [done |].
  rewrite Hm, Hst in *.
  split; [done |]. split; [| by rewrite H1, H2].
  rewrite Hout2. f_equal.
  unfold cleanup, model_train, likelihood_train, bind, log, modify in Hrun1.
  by injection Hrun1 as <-.
Qed.

End Training.

(** [train_resumes] on the counting library: 2 iterations, then 3. *)
Lemma train_resumes_witness :
  exists s1 s2 s12,
    train (L := Stub.counting _ _) [] [] 2 Stub.fresh = (Ok tt, s1) /\
    train [] [] 3 s1 = (Ok tt, s2) /\
    train [] [] (2 + 3) Stub.fresh = (Ok tt, s12) /\
    state s2 = state s12 /\ calls s2 = calls s12 /\
    length (stdout s2) = length (stdout s12).
Proof.
  apply (train_resumes (L := Stub.counting _ _) [] [] 2 3 Stub.fresh); lia.
Defined.

(** [love_train_clears_stale_gradients] on the counting library, whose
    [zero_grad] sets the gradient to 0. *)
Lemma love_train_clears_stale_gradients_witness :
  exists s1 s2,
    train (L := Stub.counting _ _) [] [] 2 Stub.fresh = (Ok tt, s1) /\
    train [] [] 2 (with_grad (L := Stub.counting _ _) 7 Stub.fresh)
    = (Ok tt, s2) /\
    state s1 = state s2 /\ stdout s1 = stdout s2.
Proof.
  apply (love_train_clears_stale_gradients (L := Stub.counting _ _)
           [] [] 2 Stub.fresh 7); [reflexivity | lia].
Defined.

End LOVEExtra.

(** ** More on the deep-kernel-learning notebook *)

Module DKLExtra.
Import PyFacts TorchFacts DKL DKLFacts.

Section Harness.
Context {Input Target : Type} `{L : Library Input Target}.
Variable train_loader : loader Input Target.
Variable test_loader : loader Input Target.

Local Abbreviation update := (DKL.update train_loader).
Local Abbreviation progress_lines := (DKL.progress_lines train_loader).

(** *** [train] *)

(** X14.  [train(epoch)] starts from [model.train()], [likelihood.train()]
    and, in each batch, [zero_grad()]: when [zero_grad] leaves the same
    gradient whatever it finds and there is a batch, neither the mode the
    model and likelihood were in nor a gradient left over has any effect
    on the trained state or on the lines printed, and both are left in
    training mode. *)
Theorem dkl_train_entry_independent epoch (s : session L) (g0 : Grad) b1 b2 :
  (forall g1 g2 : Grad, zeroed g1 = zeroed g2) ->
  batches train_loader <> [] ->
  exists s1 s2,
    train train_loader epoch s = (Ok tt, s1) /\
    train train_loader epoch
      (with_grad g0 (with_model_training b1 (with_likelihood_training b2 s)))
    = (Ok tt, s2) /\
    state s1 = state s2 /\ stdout s1 = stdout s2 /\
    model_training s2 = true /\ likelihood_training s2 = true.
Proof.
  intros Hz Hne.
  destruct (dkl_train_run train_loader epoch s)
    as (s1 & Hrun1 & Hst1 & _ & Hout1 & _).
  destruct (dkl_train_run train_loader epoch
              (with_grad g0 (with_model_training b1 (with_likelihood_training b2 s))))
    as (s2 & Hrun2 & Hst2 & _ & Hout2 & Hm & Hl & _).
  exists s1, s2. split; [done |]. split; [done |].
  destruct (batches train_loader) as [|b bs]; [done |].
  unfold state in *.
  cbn [params grad opt stdout with_grad with_model_training
         with_likelihood_training] in *.
  rewrite Hst1, Hst2, Hout1, Hout2.
  cbn [fold_left DKL.progress_lines fst].
  assert (update (params s, grad s, opt s) b = update (params s, g0, opt s) b) as ->.
  { unfold DKL.update. by rewrite (Hz (grad s) g0). }
  done.
Qed.

(** *** [test] *)

(** The batch loop of [test] with the value of [correct]. *)
Lemma test_batches_total bs : forall (test_loss correct : Z) (s : session L),
  exists s',
    for_fold bs (test_loss, correct)
      (fun '(test_loss, correct) '(data, target) =>
         bind (gets (fun s => count_correct (params s) data target))
           (fun c => bind (log Predict)
                       (fun _ => ret (test_loss, correct + c)))) s
    = (Ok (test_loss,
           fold_left (fun acc b => acc + count_correct (params s) b.1 b.2)
             bs correct), s') /\
    s' = with_calls (calls s ++ replicate (length bs) Predict) s.
Proof.
  induction bs as [|[data target] bs IH]; intros test_loss correct s.
  - exists s. cbn. rewrite app_nil_r. by destruct s.
  - cbn [for_fold]. unfold bind at 1. unfold bind, gets, log, modify, ret. cbn.
    match goal with |- exists _, for_fold _ (_, ?c0) _ ?s0 = _ /\ _ =>
      destruct (IH test_loss c0 s0) as (s' & Hrun & Hs')
    end.
    exists s'. split; [exact Hrun |].
    rewrite Hs'. unfold with_calls. cbn. by rewrite <- app_assoc.
Qed.

(** [test] up to its [print], with the value of [correct]. *)
Lemma test_locals_total (s : session L) :
  dataset_len test_loader <> 0 ->
  exists s',
    test_locals test_loader s
    = (Ok ((inject_Z 0 / inject_Z (dataset_len test_loader))%Q,
           total_correct (params s) (batches test_loader)), s') /\
    state s' = state s /\
    model_training s' = false /\ likelihood_training s' = false /\
    stdout s' = stdout s /\ names s' = names s /\ files s' = files s.
Proof.
  intros Hlen. unfold test_locals.
  unfold bind at 1. unfold model_eval, bind, modify, log. cbn.
  unfold likelihood_eval, bind, modify, log. cbn.
  match goal with
  | |- exists _, match for_fold ?bs (?t, ?c) ?body ?s0 with _ => _ end = _ /\ _ =>
      destruct (test_batches_total bs t c s0) as (s' & Hrun & Hs')
  end.
  unfold bind, gets, log, modify, ret in Hrun |- *. rewrite Hrun.
  unfold truediv. destruct (Z.eqb_spec (dataset_len test_loader) 0); [done |].
  exists s'. split; [reflexivity |].
  by rewrite Hs'.
Qed.

(** X15.  On a session where the misspelled name [tes_loader] happens to
    be bound to a loader [l], neither dataset being empty (so that both
    divisions are defined), [test()] returns and prints one line; the
    accuracy on it is the number of correct predictions over the batches
    of [test_loader] against the size of the dataset of [l], not of
    [test_loader].  Parameters, names and files are untouched, and model
    and likelihood are left in evaluation mode. *)
Theorem test_reports_against_tes_loader (s : session L) l :
  dataset_len test_loader <> 0 -> dataset_len l <> 0 ->
  names s !! "tes_loader" = Some (VLoader l) ->
  exists s',
    test test_loader s = (Ok tt, s') /\
    stdout s' = stdout s ++
      ["Test Set | Average Loss: "
       +:+ fmt_f 4 (inject_Z 0 / inject_Z (dataset_len test_loader))%Q
       +:+ ", Accuracy: "
       +:+ fmt_accuracy (total_correct (params s) (batches test_loader))
             (dataset_len l)
       +:+ "%"] /\
    state s' = state s /\ names s' = names s /\ files s' = files s /\
    model_training s' = false /\ likelihood_training s' = false.
Proof.
  intros Hlen _ Htes. unfold test.
  destruct (test_locals_total s Hlen)
    as (s1 & Hrun & Hst & Hm & Hl & Hout & Hn & Hf).
  rewrite (bind_ok _ _ _ _ _ Hrun).
  erewrite bind_ok.
  2:{ unfold lookup_name. rewrite Hn, Htes. reflexivity. }
  erewrite bind_ok by reflexivity.
  unfold print, modify. eexists. split; [reflexivity |].
  unfold state in *. cbn. by rewrite Hout.
Qed.

(** *** The epoch loop *)





End Harness.

(** [dkl_train_entry_independent] on the counting library, two batches. *)
Lemma dkl_train_entry_independent_witness :
  exists s1 s2,
    train (L := Stub.counting unit unit) (Stub.unit_loader 2 128) 1 Stub.fresh
    = (Ok tt, s1) /\
    train (Stub.unit_loader 2 128) 1
      (with_grad (L := Stub.counting unit unit) 7
         (with_model_training false
            (with_likelihood_training false Stub.fresh)))
    = (Ok tt, s2) /\
    state s1 = state s2 /\ stdout s1 = stdout s2 /\
    model_training s2 = true /\ likelihood_training s2 = true.
Proof.
  apply (dkl_train_entry_independent (L := Stub.counting unit unit)
           (Stub.unit_loader 2 128) 1 Stub.fresh 7 false false);
    [reflexivity | discriminate].
Defined.

(** [test_reports_against_tes_loader] on a session that binds
    [tes_loader] to a loader over 7 items: 3 correct predictions are
    reported against 7, not against the 150 items of the test set. *)
Lemma test_reports_against_tes_loader_witness :
  exists s',
    test (Stub.unit_loader 3 150) (Stub.repaired (Stub.unit_loader 1 7))
    = (Ok tt, s') /\
    stdout s' = ["Test Set | Average Loss: 0/150, Accuracy: 3 of 7%"].
Proof.
  destruct (test_reports_against_tes_loader (L := Stub.counting unit unit)
              (Stub.unit_loader 3 150) (Stub.repaired (Stub.unit_loader 1 7))
              (Stub.unit_loader 1 7))
    as (s' & Hrun & Hout & _); [discriminate | discriminate | reflexivity |].
  exists s'. split; [exact Hrun |]. rewrite Hout. vm_compute. reflexivity.
Defined.


End DKLExtra.
